(** * Verification of the document query hook and its collaborators

    Shallow embedding of
      - frontend/src/hooks/useDocuments.js      (module [UseDocuments]),
      - frontend/src/components/SearchPanel.jsx (modules [SearchPanel] and
                                                 [SearchPanelSettle]),
      - the debounce of the search bar          (module [SearchBar]),
      - the pagination bar                      (module [Pagination]),
      - frontend/src/components/FilterBar.jsx   (module [FilterBar]),
      - frontend/src/components/DocumentList.jsx (module [DocumentList]),
    over a small model of the JavaScript values these files handle
    (module [JS]).

    Conventions of the model.
      - A number is an integer-valued double, held as the integer of [Z] it
        is equal to.  The sum, difference and product of two of them are
        rounded the way IEEE 754 binary64 rounds (to 53 significant bits,
        to nearest, ties to even), so that they are exact on the safe
        integers and rounded beyond 2^53, as in JavaScript; a quotient is
        the rational it is rounded to.  The exponent range of binary64 is
        not modelled: magnitudes stay below 2^1024, where JavaScript has
        Infinity; fractions and NaN are not numbers of the model, and the
        two zeros are one.  An arithmetic operator applied to anything else
        than two numbers coerces in JavaScript (string concatenation, NaN);
        those results lie outside the value domain and the operator returns
        [None].
      - A string is a sequence of code units below 256, one [ascii] each.
      - An object is the list of its own properties in insertion order, which
        is the order [JSON.stringify] and the spread syntax enumerate them in
        (property names are not array indices).  The filters and the bodies
        of requests hold primitive values ([JSVal]); the body of an error
        response, and so the [error] cell it is stored in, is any JSON value
        ([JSON]), arrays and objects included. *)

From Stdlib Require Import ZArith List String Ascii Bool Lia.
From Stdlib Require Import QArith Qround DecimalString DecimalZ.
Import ListNotations.
Local Open Scope string_scope.
Local Open Scope Z_scope.

(* ================================================================== *)
(** * JavaScript values, objects and builtins *)

Module JS.

Inductive JSVal : Type :=
| JUndefined
| JNull
| JBool (b : bool)
| JNum (n : Z)
| JStr (s : string).

(** ToBoolean: the falsy values are undefined, null, false, 0 and the
    empty string. *)
Definition ToBoolean (v : JSVal) : bool :=
  match v with
  | JUndefined => false
  | JNull => false
  | JBool b => b
  | JNum n => negb (Z.eqb n 0)
  | JStr s => negb (String.eqb s "")
  end.

(** [a || b] *)
Definition js_or (a b : JSVal) : JSVal :=
  if ToBoolean a then a else b.

(** ** Numbers *)

(** [Number.MAX_SAFE_INTEGER] *)
Definition MAX_SAFE_INTEGER : Z := 2 ^ 53 - 1.

(** [Number.isSafeInteger] *)
Definition safe (z : Z) : Prop :=
  - MAX_SAFE_INTEGER <= z <= MAX_SAFE_INTEGER.

(** Rounding to nearest, ties to even: [m] is the quotient of a division by
    [B] and [r] its remainder. *)
Definition round_half_even (m r B : Z) : Z :=
  match Z.compare (2 * r) B with
  | Lt => m
  | Gt => m + 1
  | Eq => if Z.even m then m else m + 1
  end.

(** The double nearest to an integer: the integer itself below 2^53, and
    beyond that the multiple of [2^e] nearest to it, where [e] leaves 53
    significant bits. *)
Definition to_double (z : Z) : Z :=
  let a := Z.abs z in
  if Z.ltb a (2 ^ 53) then z
  else
    let e := Z.log2 a - 52 in
    Z.sgn z * (round_half_even (a / 2 ^ e) (a mod 2 ^ e) (2 ^ e) * 2 ^ e).

(** The exponent [e] that leaves the quotient [a/b] 53 significant bits:
    [2^52 <= (a/b) / 2^e < 2^53]. *)
Definition quotient_exponent (a b : Z) : Z :=
  let k := Z.log2 a - Z.log2 b in
  (if Z.leb (b * 2 ^ Z.max 0 k) (a * 2 ^ Z.max 0 (- k)) then k else k - 1)
  - 52.

(** The double nearest to the quotient of two positive integers. *)
Definition double_quotient_pos (a b : Z) : Q :=
  let e := quotient_exponent a b in
  let A := a * 2 ^ Z.max 0 (- e) in
  let B := b * 2 ^ Z.max 0 e in
  Qmake (round_half_even (A / B) (A mod B) B * 2 ^ Z.max 0 e)
        (Z.to_pos (2 ^ Z.max 0 (- e))).

(** The double nearest to [x/y], for [y] other than 0. *)
Definition double_quotient (x y : Z) : Q :=
  if Z.eqb x 0 then 0%Q
  else
    let q := double_quotient_pos (Z.abs x) (Z.abs y) in
    if Z.ltb (Z.sgn x * Z.sgn y) 0 then Qopp q else q.

(** [a + b], [a - b], [a * b] on numbers: the exact result, rounded. *)
Definition js_add (a b : JSVal) : option JSVal :=
  match a, b with
  | JNum x, JNum y => Some (JNum (to_double (x + y)))
  | _, _ => None
  end.

Definition js_sub (a b : JSVal) : option JSVal :=
  match a, b with
  | JNum x, JNum y => Some (JNum (to_double (x - y)))
  | _, _ => None
  end.

Definition js_mul (a b : JSVal) : option JSVal :=
  match a, b with
  | JNum x, JNum y => Some (JNum (to_double (x * y)))
  | _, _ => None
  end.

(** [Math.max(a, b)] on numbers. *)
Definition Math_max (a b : JSVal) : option JSVal :=
  match a, b with
  | JNum x, JNum y => Some (JNum (Z.max x y))
  | _, _ => None
  end.

(** [a / b] on numbers: the double nearest to the quotient, as a rational.
    Division by zero gives NaN or an infinity in JavaScript, which no
    rational represents: [None]. *)
Definition js_div (a b : JSVal) : option Q :=
  match a, b with
  | JNum x, JNum y =>
      if Z.eqb y 0 then None else Some (double_quotient x y)
  | _, _ => None
  end.

(** [Math.floor] and [Math.ceil]: exact, an integer being a double whenever
    its neighbour is. *)
Definition Math_floor (q : Q) : JSVal := JNum (Qfloor q).
Definition Math_ceil (q : Q) : JSVal := JNum (Qceiling q).

(** ** Objects *)

Definition Obj : Type := list (string * JSVal).

Definition keys (o : Obj) : list string := map fst o.

(** An object holds each property name once. *)
Definition wf (o : Obj) : Prop := NoDup (keys o).

Fixpoint get (o : Obj) (k : string) : option JSVal :=
  match o with
  | [] => None
  | (k', v) :: o' => if String.eqb k k' then Some v else get o' k
  end.

(** [o.k]: reading an absent property gives undefined. *)
Definition prop (o : Obj) (k : string) : JSVal :=
  match get o k with
  | Some v => v
  | None => JUndefined
  end.

(** [o[k] = v] while an object literal is built: an existing property keeps
    its place, a new one goes last. *)
Fixpoint set (k : string) (v : JSVal) (o : Obj) : Obj :=
  match o with
  | [] => [(k, v)]
  | (k', v') :: o' =>
      if String.eqb k k' then (k, v) :: o' else (k', v') :: set k v o'
  end.

(** [{ ...target, ...source }]: the properties of [source] are defined on
    the copy of [target], in the order [source] enumerates them. *)
Definition spread (target source : Obj) : Obj :=
  fold_left (fun acc kv => set (fst kv) (snd kv) acc) source target.

(** ** JSON.stringify *)

Definition hex_digit (n : nat) : ascii :=
  match n with
  | 0 => "0" | 1 => "1" | 2 => "2" | 3 => "3" | 4 => "4" | 5 => "5"
  | 6 => "6" | 7 => "7" | 8 => "8" | 9 => "9" | 10 => "a" | 11 => "b"
  | 12 => "c" | 13 => "d" | 14 => "e" | _ => "f"
  end%char%nat.

(** QuoteJSONString on one code unit. *)
Definition json_escape (c : ascii) : string :=
  let n := nat_of_ascii c in
  if Nat.eqb n 8 then "\b"
  else if Nat.eqb n 9 then "\t"
  else if Nat.eqb n 10 then "\n"
  else if Nat.eqb n 12 then "\f"
  else if Nat.eqb n 13 then "\r"
  else if Nat.eqb n 34 then String "\" (String "034" EmptyString)
  else if Nat.eqb n 92 then "\\"
  else if Nat.ltb n 32 then
    "\u00" ++ String (hex_digit (n / 16)) (String (hex_digit (n mod 16)) "")
  else String c "".

Fixpoint json_escape_all (s : string) : string :=
  match s with
  | EmptyString => ""
  | String c s' => json_escape c ++ json_escape_all s'
  end.

Definition json_quote (s : string) : string :=
  String "034" (json_escape_all s ++ String "034" "").

(** The decimal notation of an integer, as Number::toString prints it for
    magnitudes below 10^21; beyond, JavaScript writes an exponent, and
    still gives different numbers different texts. *)
Definition Number_toString (n : Z) : string :=
  NilZero.string_of_int (Z.to_int n).

(** SerializeJSONProperty: undefined has no JSON text. *)
Definition json_value (v : JSVal) : option string :=
  match v with
  | JUndefined => None
  | JNull => Some "null"
  | JBool true => Some "true"
  | JBool false => Some "false"
  | JNum n => Some (Number_toString n)
  | JStr s => Some (json_quote s)
  end.

(** SerializeJSONObject: the properties whose value has a JSON text, in
    order, separated by commas. *)
Fixpoint json_members (o : Obj) : list string :=
  match o with
  | [] => []
  | (k, v) :: o' =>
      match json_value v with
      | Some t => (json_quote k ++ ":" ++ t) :: json_members o'
      | None => json_members o'
      end
  end.

Definition JSON_stringify (o : Obj) : string :=
  "{" ++ String.concat "," (json_members o) ++ "}".

(** ** JSON values

    What the body of a response may hold: a primitive value, an array or
    an object. *)
#[local] Unset Elimination Schemes.

Inductive JSON : Type :=
| JPrimitive (v : JSVal)
| JArray (items : list JSON)
| JObject (props : list (string * JSON)).

#[local] Set Elimination Schemes.

Coercion JPrimitive : JSVal >-> JSON.

(** ToBoolean: every array and every object is truthy. *)
Definition JSON_ToBoolean (j : JSON) : bool :=
  match j with
  | JPrimitive v => ToBoolean v
  | JArray _ => true
  | JObject _ => true
  end.

(** [a || b] *)
Definition JSON_or (a b : JSON) : JSON :=
  if JSON_ToBoolean a then a else b.

Fixpoint JSON_get (props : list (string * JSON)) (k : string) : option JSON :=
  match props with
  | [] => None
  | (k', j) :: props' => if String.eqb k k' then Some j else JSON_get props' k
  end.

(** [j.k]: undefined when [j] has no such property; only objects have
    properties here (the properties of arrays and strings, [length] and the
    indices, are not modelled). *)
Definition JSON_prop (j : JSON) (k : string) : JSON :=
  match j with
  | JObject props =>
      match JSON_get props k with
      | Some v => v
      | None => JUndefined
      end
  | _ => JUndefined
  end.

(** [typeof j === 'string'] *)
Definition is_string (j : JSON) : bool :=
  match j with
  | JPrimitive (JStr _) => true
  | _ => false
  end.

End JS.

Import JS.

(* ================================================================== *)
(** * hooks/useDocuments.js *)

Module UseDocuments.

(** [response.data] of a fulfilled list request. *)
Record ListData : Type := mkListData {
  items : list Obj;
  data_total : JSVal
}.

(** The rejection reason [err], as far as the hook inspects it: whether a
    response came back, whether it had a body, and the body. *)
Inductive AxiosError : Type :=
| NoResponse
| EmptyResponse
| ErrorResponse (data : JSON).

(** [err.response?.data?.detail] *)
Definition err_detail (err : AxiosError) : JSON :=
  match err with
  | NoResponse => JUndefined
  | EmptyResponse => JUndefined
  | ErrorResponse data => JSON_prop data "detail"
  end.

Inductive Outcome : Type :=
| Fulfilled (data : ListData)
| Rejected (err : AxiosError).

(** The state cells of one hook instance: five [useState] cells and the
    [useRef] cell, whose [current] starts undefined ([None]). *)
Record Hook : Type := mkHook {
  documents : list Obj;
  total : JSVal;
  loading : bool;
  error : JSON;
  filters : Obj;
  prevFiltersRef : option string
}.

(** [{ skip: 0, limit: 20 }] *)
Definition default_filters : Obj :=
  set "limit" (JNum 20) (set "skip" (JNum 0) []).

(** The cells at the first render of [useDocuments(initialFilters)]; the
    filters start as [{ skip: 0, limit: 20, ...initialFilters }]. *)
Definition useDocuments (initialFilters : Obj) : Hook :=
  {| documents := [];
     total := JNum 0;
     loading := false;
     error := JNull;
     filters := spread default_filters initialFilters;
     prevFiltersRef := None |}.

(** ** The functions handed to [setFilters]

    Each builds a new object from the previous filters [prev].  The paging
    functions compute on [prev.skip] and [prev.limit] and are defined where
    both hold numbers. *)

(** [{ ...prev, ...newFilters, skip: 0 }] *)
Definition updateFilters (newFilters prev : Obj) : Obj :=
  set "skip" (JNum 0) (spread (spread [] prev) newFilters).

(** [{ skip: 0, limit: 20 }], whatever [prev] is. *)
Definition clearFilters (prev : Obj) : Obj :=
  set "limit" (JNum 20) (set "skip" (JNum 0) []).

(** [{ ...prev }] *)
Definition refetch (prev : Obj) : Obj :=
  spread [] prev.

(** [{ ...prev, skip: prev.skip + prev.limit }] *)
Definition nextPage (prev : Obj) : option Obj :=
  match js_add (prop prev "skip") (prop prev "limit") with
  | Some s => Some (set "skip" s (spread [] prev))
  | None => None
  end.

(** [{ ...prev, skip: Math.max(0, prev.skip - prev.limit) }] *)
Definition prevPage (prev : Obj) : option Obj :=
  match js_sub (prop prev "skip") (prop prev "limit") with
  | Some d =>
      match Math_max (JNum 0) d with
      | Some s => Some (set "skip" s (spread [] prev))
      | None => None
      end
  | None => None
  end.

(** [{ ...prev, skip: page * prev.limit }] *)
Definition goToPage (page : JSVal) (prev : Obj) : option Obj :=
  match js_mul page (prop prev "limit") with
  | Some s => Some (set "skip" s (spread [] prev))
  | None => None
  end.

(** ** The effect on [filters]

    [fetchDocuments] up to its [await]: the guard on the remembered
    serialized filters, then the request.  The second component is the
    parameter object of the list request issued, if one is. *)
Definition fetchDocuments (h : Hook) : Hook * option Obj :=
  let filtersStr := JSON_stringify (filters h) in
  if match prevFiltersRef h with
     | Some prev => String.eqb prev filtersStr
     | None => false
     end
  then (h, None)
  else
    ({| documents := documents h;
        total := total h;
        loading := true;
        error := JNull;
        filters := filters h;
        prevFiltersRef := Some filtersStr |},
     Some (filters h)).

(** [fetchDocuments] after its [await], on a fulfilled request:
    [setDocuments(response.data.items)], [setTotal(response.data.total)]
    and, in the [finally] block, [setLoading(false)]. *)
Definition on_fulfilled (data : ListData) (h : Hook) : Hook :=
  {| documents := items data;
     total := data_total data;
     loading := false;
     error := error h;
     filters := filters h;
     prevFiltersRef := prevFiltersRef h |}.

(** [fetchDocuments] after its [await], on a rejected request:
    [setError(err.response?.data?.detail || 'Failed to fetch documents')]
    and, in the [finally] block, [setLoading(false)]. *)
Definition on_rejected (err : AxiosError) (h : Hook) : Hook :=
  {| documents := documents h;
     total := total h;
     loading := false;
     error := JSON_or (err_detail err) (JStr "Failed to fetch documents");
     filters := filters h;
     prevFiltersRef := prevFiltersRef h |}.

Definition settle (o : Outcome) (h : Hook) : Hook :=
  match o with
  | Fulfilled data => on_fulfilled data h
  | Rejected err => on_rejected err h
  end.

(** ** Calls and events *)

Inductive Call : Type :=
| UpdateFilters (newFilters : Obj)
| ClearFilters
| Refetch
| NextPage
| PrevPage
| GoToPage (page : JSVal).

Definition updater (c : Call) (prev : Obj) : option Obj :=
  match c with
  | UpdateFilters newFilters => Some (updateFilters newFilters prev)
  | ClearFilters => Some (clearFilters prev)
  | Refetch => Some (refetch prev)
  | NextPage => nextPage prev
  | PrevPage => prevPage prev
  | GoToPage page => goToPage page prev
  end.

Definition setFilters (f : Obj) (h : Hook) : Hook :=
  {| documents := documents h;
     total := total h;
     loading := loading h;
     error := error h;
     filters := f;
     prevFiltersRef := prevFiltersRef h |}.

Definition requests_of (r : option Obj) : list Obj :=
  match r with
  | Some params => [params]
  | None => []
  end.

(** One call of a function returned by the hook.  Every updater builds a
    new object, so the render that follows always re-runs the effect. *)
Definition call (c : Call) (h : Hook) : option (Hook * list Obj) :=
  match updater c (filters h) with
  | Some f =>
      let (h', r) := fetchDocuments (setFilters f h) in
      Some (h', requests_of r)
  | None => None
  end.

Inductive Event : Type :=
| Invoke (c : Call)
| Settle (o : Outcome).

Definition step (e : Event) (h : Hook) : option (Hook * list Obj) :=
  match e with
  | Invoke c => call c h
  | Settle o => Some (settle o h, [])
  end.

(** A run of events, with the list requests it issues, oldest first. *)
Fixpoint run (es : list Event) (h : Hook) : option (Hook * list Obj) :=
  match es with
  | [] => Some (h, [])
  | e :: es' =>
      match step e h with
      | Some (h1, r1) =>
          match run es' h1 with
          | Some (h2, r2) => Some (h2, (r1 ++ r2)%list)
          | None => None
          end
      | None => None
      end
  end.

(** The hook after its first render and the effect of that render. *)
Definition mount (initialFilters : Obj) : Hook * list Obj :=
  let (h, r) := fetchDocuments (useDocuments initialFilters) in
  (h, requests_of r).

(** ** Derived values, computed at each render *)

(** [Math.floor(filters.skip / filters.limit)] *)
Definition currentPage (h : Hook) : option JSVal :=
  option_map Math_floor
    (js_div (prop (filters h) "skip") (prop (filters h) "limit")).

(** [Math.ceil(total / filters.limit)] *)
Definition totalPages (h : Hook) : option JSVal :=
  option_map Math_ceil (js_div (total h) (prop (filters h) "limit")).

End UseDocuments.

(* ================================================================== *)
(** * components/SearchPanel.jsx *)

Module SearchPanel.

(** WhiteSpace and LineTerminator code units below 256: TAB, LF, VT, FF, CR,
    SP and NBSP. *)
Definition is_white_space (c : ascii) : bool :=
  let n := nat_of_ascii c in
  (Nat.leb 9 n && Nat.leb n 13) || Nat.eqb n 32 || Nat.eqb n 160.

Fixpoint trimStart (s : string) : string :=
  match s with
  | EmptyString => EmptyString
  | String c s' => if is_white_space c then trimStart s' else s
  end.

Fixpoint trimEnd (s : string) : string :=
  match s with
  | EmptyString => EmptyString
  | String c s' =>
      match trimEnd s' with
      | EmptyString => if is_white_space c then EmptyString else String c ""
      | t => String c t
      end
  end.

(** [String.prototype.trim] *)
Definition trim (s : string) : string := trimEnd (trimStart s).

(** The [useState] cells of the panel; [result] starts null ([None]). *)
Record Panel : Type := mkPanel {
  query : string;
  companyFilter : string;
  filingTypeFilter : string;
  limit : JSVal;
  loading : bool;
  result : option Obj;
  error : JSON
}.

Definition SearchPanel : Panel :=
  {| query := "";
     companyFilter := "";
     filingTypeFilter := "";
     limit := JNum 5;
     loading := false;
     result := None;
     error := JNull |}.

(** The body posted to [/search]. *)
Definition search_body (p : Panel) : Obj :=
  [ ("query", JStr (trim (query p)));
    ("company_filter", js_or (JStr (companyFilter p)) JNull);
    ("filing_type_filter", js_or (JStr (filingTypeFilter p)) JNull);
    ("limit", limit p) ].

(** [handleSearch] up to its [await]; the second component is the body of
    the search request posted, if one is. *)
Definition handleSearch (p : Panel) : Panel * option Obj :=
  if negb (ToBoolean (JStr (trim (query p)))) then
    ({| query := query p;
        companyFilter := companyFilter p;
        filingTypeFilter := filingTypeFilter p;
        limit := limit p;
        loading := loading p;
        result := result p;
        error := JStr "Please enter a search query" |},
     None)
  else
    ({| query := query p;
        companyFilter := companyFilter p;
        filingTypeFilter := filingTypeFilter p;
        limit := limit p;
        loading := true;
        result := None;
        error := JNull |},
     Some (search_body p)).

End SearchPanel.

(* ================================================================== *)
(** * The debounce of the search bar *)

Module SearchBar.

(** Modelled from the spec: components/SearchBar.jsx is imported by
    DocumentList.jsx but is not among the sources.  The specification
    describes its debounce as a cancellable delayed task: each keystroke
    cancels any pending task and schedules a new one, 300ms later, for the
    text typed so far; only a task that runs to completion without being
    cancelled issues a search request. Time is counted in milliseconds. *)
Record Bar : Type := mkBar {
  text : string;
  pending : option (Z * string)
}.

(** Modelled from the spec: the 300ms of inactivity the debounce waits
    for. *)
Definition delay : Z := 300.

(** Modelled from the spec: the bar at mount, nothing scheduled. *)
Definition SearchBar (initialValue : string) : Bar :=
  {| text := initialValue; pending := None |}.

(** Modelled from the spec: the clock reaches [now]; a pending task whose
    time has come runs and issues its request. *)
Definition elapse (now : Z) (b : Bar) : Bar * list string :=
  match pending b with
  | Some (due, q) =>
      if Z.leb due now then ({| text := text b; pending := None |}, [q])
      else (b, [])
  | None => (b, [])
  end.

(** Modelled from the spec: a keystroke at time [now] appends its character
    to the input, cancels the pending task and schedules a new one. *)
Definition keystroke (now : Z) (c : ascii) (b : Bar) : Bar * list string :=
  let (b1, issued) := elapse now b in
  let value := text b1 ++ String c "" in
  ({| text := value; pending := Some (now + delay, value) |}, issued).

(** Modelled from the spec: keystrokes at the given times, in order, with
    the requests issued while typing. *)
Fixpoint typing (ks : list (Z * ascii)) (b : Bar) : Bar * list string :=
  match ks with
  | [] => (b, [])
  | (now, c) :: ks' =>
      let (b1, r1) := keystroke now c b in
      let (b2, r2) := typing ks' b1 in
      (b2, (r1 ++ r2)%list)
  end.

(** Modelled from the spec: the input stays inactive long enough for the
    pending task, if any, to run. *)
Definition inactivity (b : Bar) : list string :=
  match pending b with
  | Some (_, q) => [q]
  | None => []
  end.

(** Modelled from the spec: the search requests of a whole typing session,
    oldest first. *)
Definition session (ks : list (Z * ascii)) (b : Bar) : list string :=
  let (b1, r) := typing ks b in (r ++ inactivity b1)%list.

(** Consecutive keystrokes are less than 300ms apart. *)
Fixpoint burst (ks : list (Z * ascii)) : Prop :=
  match ks with
  | [] => True
  | (t1, _) :: ks' =>
      match ks' with
      | [] => True
      | (t2, _) :: _ => t1 <= t2 < t1 + delay /\ burst ks'
      end
  end.

Definition typed (ks : list (Z * ascii)) : string :=
  string_of_list_ascii (map snd ks).

(** No task is due when the next keystroke comes. *)
Definition not_due (ks : list (Z * ascii)) (b : Bar) : Prop :=
  match ks, pending b with
  | (now, _) :: _, Some (due, _) => now < due
  | _, _ => True
  end.

End SearchBar.

(* ================================================================== *)
(** * components/Pagination.jsx *)

Module Pagination.

(** The page numbers the bar is given are safe integers, on which its sums
    and differences are exact. *)

(** Number of page buttons to show. *)
Definition showPages : Z := 5.

(** [for (let i = startPage; i <= endPage; i++) pages.push(i)], unrolled
    over the number of iterations left. *)
Fixpoint push_pages (n : nat) (i : Z) (pages : list Z) : list Z :=
  match n with
  | O => pages
  | S n' => push_pages n' (i + 1) (pages ++ [i])%list
  end.

(** [getPageNumbers()]; [Math.floor(showPages / 2)] is the integer
    quotient. *)
Definition getPageNumbers (currentPage totalPages : Z) : list Z :=
  let startPage := Z.max 0 (currentPage - showPages / 2) in
  let endPage := Z.min (totalPages - 1) (startPage + showPages - 1) in
  let startPage :=
    if Z.ltb (endPage - startPage) (showPages - 1)
    then Z.max 0 (endPage - showPages + 1)
    else startPage in
  push_pages (Z.to_nat (endPage - startPage + 1)) startPage [].




(** [currentPage > 2 && ...]: the extra button for the first page. *)
Definition first_shortcut (currentPage : Z) : bool := Z.gtb currentPage 2.

(** [currentPage < totalPages - 3 && ...]: the extra button for the last
    page. *)
Definition last_shortcut (currentPage totalPages : Z) : bool :=
  Z.ltb currentPage (totalPages - 3).

(** The pages that get a button, in the order they are rendered: the
    shortcut to the first page, the window, the shortcut to the last. *)
Definition page_buttons (currentPage totalPages : Z) : list Z :=
  ((if first_shortcut currentPage then [0] else []) ++
   getPageNumbers currentPage totalPages ++
   (if last_shortcut currentPage totalPages then [totalPages - 1] else []))
  %list.

End Pagination.

(* ================================================================== *)
(** * components/FilterBar.jsx *)

Module FilterBar.

(** The initial [localFilters]: each field is [currentFilters.k || '']. *)
Definition FilterBar (currentFilters : Obj) : Obj :=
  [ ("filing_type", js_or (prop currentFilters "filing_type") (JStr ""));
    ("company_name", js_or (prop currentFilters "company_name") (JStr ""));
    ("start_date", js_or (prop currentFilters "start_date") (JStr ""));
    ("end_date", js_or (prop currentFilters "end_date") (JStr "")) ].

(** [Object.entries(newFilters).reduce((acc, [k, v]) => { if (v) acc[k] = v;
    return acc; }, {})] *)
Definition cleanFilters (newFilters : Obj) : Obj :=
  fold_left
    (fun acc kv => if ToBoolean (snd kv) then set (fst kv) (snd kv) acc
                   else acc)
    newFilters [].

(** [handleFilterChange(key, value)]: the new [localFilters],
    [{ ...localFilters, [key]: value }], and the argument handed to
    [onFilterChange]. *)
Definition handleFilterChange (key : string) (value : JSVal)
    (localFilters : Obj) : Obj * Obj :=
  let newFilters := set key value (spread [] localFilters) in
  (newFilters, cleanFilters newFilters).

Definition emptyFilters : Obj :=
  [ ("filing_type", JStr ""); ("company_name", JStr "");
    ("start_date", JStr ""); ("end_date", JStr "") ].

(** [handleClearFilters()]: the new [localFilters] and the argument handed
    to [onFilterChange]. *)
Definition handleClearFilters (localFilters : Obj) : Obj * Obj :=
  (emptyFilters, []).

(** [v !== ''] *)
Definition not_empty_string (v : JSVal) : bool :=
  match v with
  | JStr s => negb (String.eqb s "")
  | _ => true
  end.

(** [Object.values(localFilters).some((v) => v !== '')] *)
Definition hasActiveFilters (localFilters : Obj) : bool :=
  existsb (fun kv => not_empty_string (snd kv)) localFilters.

End FilterBar.

(* ================================================================== *)
(** * components/DocumentList.jsx *)

Module DocumentList.
Import UseDocuments.

(** [handleSearch(searchTerm)]:
    [updateFilters({ search: searchTerm || undefined })]. *)
Definition handleSearch (searchTerm : JSVal) : Call :=
  UpdateFilters (set "search" (js_or searchTerm JUndefined) []).

(** [handleFilterChange(newFilters)]: [updateFilters(newFilters)]. *)
Definition handleFilterChange (newFilters : Obj) : Call :=
  UpdateFilters newFilters.

(** A value inside a template literal. *)
Definition ToString (v : JSVal) : string :=
  match v with
  | JUndefined => "undefined"
  | JNull => "null"
  | JBool true => "true"
  | JBool false => "false"
  | JNum n => Number_toString n
  | JStr s => s
  end.

(** The same for a JSON value: an array is its elements joined by commas,
    null and undefined ones left empty; an object is '[object Object]'. *)
Fixpoint JSON_ToString (j : JSON) : string :=
  match j with
  | JPrimitive v => ToString v
  | JArray items =>
      String.concat ","
        (map (fun x =>
                match x with
                | JPrimitive JUndefined => ""
                | JPrimitive JNull => ""
                | _ => JSON_ToString x
                end) items)
  | JObject _ => "[object Object]"
  end.

(** The message [handleSync] shows after a sync that succeeded, from
    [response.data]. *)
Definition sync_success_message (data : Obj) : string :=
  "Success! Created " ++ ToString (prop data "documents_created")
    ++ " documents, " ++ "updated "
    ++ ToString (prop data "documents_updated") ++ ", "
    ++ "and generated " ++ ToString (prop data "chunks_created")
    ++ " chunks.".

(** The message [handleSync] shows after a sync that failed. *)
Definition sync_error_message (err : AxiosError) : string :=
  "Error: " ++ JSON_ToString (JSON_or (err_detail err)
                                      (JStr "Failed to sync documents")).

(** [syncMessage.startsWith('Error')]: the banner is red. *)
Definition shown_as_error (syncMessage : string) : bool :=
  String.prefix "Error" syncMessage.

(** [{syncMessage && ...}]: the banner is shown. *)
Definition banner_shown (syncMessage : string) : bool :=
  ToBoolean (JStr syncMessage).

End DocumentList.

(* ================================================================== *)
(** * components/SearchPanel.jsx, after the request *)

Module SearchPanelSettle.
Import SearchPanel.

(** [handleSearch] after its [await], on a fulfilled request:
    [setResult(response.data)] and, in the [finally] block,
    [setLoading(false)]. *)
Definition on_fulfilled (data : Obj) (p : Panel) : Panel :=
  {| query := query p;
     companyFilter := companyFilter p;
     filingTypeFilter := filingTypeFilter p;
     limit := limit p;
     loading := false;
     result := Some data;
     error := error p |}.

(** [handleSearch] after its [await], on a rejected request:
    [setError(err.response?.data?.detail || 'An error occurred while
    searching. Please try again.')] and [setLoading(false)]. *)
Definition on_rejected (err : UseDocuments.AxiosError) (p : Panel) : Panel :=
  {| query := query p;
     companyFilter := companyFilter p;
     filingTypeFilter := filingTypeFilter p;
     limit := limit p;
     loading := false;
     result := result p;
     error :=
       JSON_or (UseDocuments.err_detail err)
               (JStr "An error occurred while searching. Please try again.")
  |}.

(** [disabled={loading || !query.trim()}] on the submit button. *)
Definition submit_disabled (p : Panel) : bool :=
  loading p || negb (ToBoolean (JStr (trim (query p)))).

End SearchPanelSettle.

(* ================================================================== *)
(** * Vocabulary of the specification *)

Module Spec.
Import UseDocuments.

(** [skip] and [limit] hold integers, [limit] is not negative and [skip] is
    a non-negative multiple of [limit]. *)
Definition paging_invariant (f : Obj) : Prop :=
  wf f /\
  exists s l,
    get f "skip" = Some (JNum s) /\ get f "limit" = Some (JNum l) /\
    0 <= l /\ 0 <= s /\ (l | s).

(** A payload that leaves the page size alone or sets it to a non-negative
    integer. *)
Definition sound_payload (p : Obj) : Prop :=
  Forall (fun kv => fst kv = "limit" -> exists l, snd kv = JNum l /\ 0 <= l)
         p.

Definition sound_call (c : Call) : Prop :=
  match c with
  | UpdateFilters p => sound_payload p
  | GoToPage page => exists n, page = JNum n /\ 0 <= n
  | _ => True
  end.

Definition sound_event (e : Event) : Prop :=
  match e with
  | Invoke c => sound_call c
  | Settle _ => True
  end.

(** The call keeps [skip] a safe integer on the filters [f]: the sum of
    [nextPage] and the product of [goToPage] do not pass
    [Number.MAX_SAFE_INTEGER]. *)
Definition call_safe (c : Call) (f : Obj) : bool :=
  match c with
  | NextPage =>
      match prop f "skip", prop f "limit" with
      | JNum s, JNum l => Z.leb (s + l) MAX_SAFE_INTEGER
      | _, _ => true
      end
  | GoToPage (JNum n) =>
      match prop f "limit" with
      | JNum l => Z.leb (n * l) MAX_SAFE_INTEGER
      | _ => true
      end
  | _ => true
  end.

(** Every call of the run keeps [skip] a safe integer. *)
Fixpoint within_safe (es : list Event) (h : Hook) : bool :=
  match es with
  | [] => true
  | e :: es' =>
      match e with
      | Invoke c => call_safe c (filters h)
      | Settle _ => true
      end &&
      match step e h with
      | Some (h1, _) => within_safe es' h1
      | None => true
      end
  end.

Definition is_rejection (e : Event) : bool :=
  match e with
  | Settle (Rejected _) => true
  | _ => false
  end.

Definition is_fulfilment (e : Event) : bool :=
  match e with
  | Settle (Fulfilled _) => true
  | _ => false
  end.

(** Empty or whitespace only. *)
Fixpoint blank (s : string) : bool :=
  match s with
  | EmptyString => true
  | String c s' => SearchPanel.is_white_space c && blank s'
  end.

Definition first_char (s : string) : option ascii :=
  match s with
  | EmptyString => None
  | String c _ => Some c
  end.

Fixpoint last_char (s : string) : option ascii :=
  match s with
  | EmptyString => None
  | String c EmptyString => Some c
  | String _ s' => last_char s'
  end.

(** Neither the first nor the last character is white space. *)
Definition trimmed (s : string) : Prop :=
  (forall c, first_char s = Some c -> SearchPanel.is_white_space c = false) /\
  (forall c, last_char s = Some c -> SearchPanel.is_white_space c = false).

End Spec.

(* ================================================================== *)
(** * Reading JSON texts back

    Devices for the proofs about the serialized filters: what a JSON text
    records of an object, and how the front of a text is read back. *)

Module JSONText.
Import UseDocuments.

(** The properties [JSON.stringify] writes: those whose value is not
    undefined. *)
Definition defined (o : Obj) : Obj :=
  filter (fun kv => match snd kv with JUndefined => false | _ => true end) o.










(** The data of the last request fulfilled among [es], or [d] if none
    is. *)
Definition last_data (es : list Event) (d : ListData) : ListData :=
  fold_left
    (fun d e => match e with Settle (Fulfilled d') => d' | _ => d end)
    es d.

End JSONText.

(* ================================================================== *)
(** * Vocabulary of the further properties *)

Module Observations.
Import UseDocuments.

(** The effect has run on the current filters: the remembered text is
    theirs.  This holds after the mount and after every call. *)
Definition settled (h : Hook) : Prop :=
  prevFiltersRef h = Some (JSON_stringify (filters h)).


(** An entry whose value is truthy. *)
Definition truthy (kv : string * JSVal) : bool := ToBoolean (snd kv).

(** [skip] and [limit] hold the integers [s] and [l]. *)
Definition paging (f : Obj) (s l : Z) : Prop :=
  wf f /\ get f "skip" = Some (JNum s) /\ get f "limit" = Some (JNum l).

End Observations.

(* ================================================================== *)
(** * Facts about objects *)

Section ObjectFacts.

Implicit Types (o f p : Obj) (k : string) (v : JSVal).

Lemma get_set k v o k' :
  get (set k v o) k' = if String.eqb k' k then Some v else get o k'.
Proof.
  induction o as [|[k0 v0] o IH]; simpl.
  - destruct (String.eqb k' k); reflexivity.
  - destruct (String.eqb k k0) eqn:E; simpl.
    + apply String.eqb_eq in E; subst k0.
      destruct (String.eqb k' k); reflexivity.
    + rewrite IH. destruct (String.eqb k' k0) eqn:E0; [|reflexivity].
      apply String.eqb_eq in E0; subst k0.
      destruct (String.eqb k' k) eqn:E1; [|reflexivity].
      apply String.eqb_eq in E1; subst k'.
      rewrite String.eqb_refl in E; discriminate.
Qed.

Lemma get_set_same k v o : get (set k v o) k = Some v.
Proof. rewrite get_set, String.eqb_refl; reflexivity. Qed.

Lemma get_set_other k v o k' : k' <> k -> get (set k v o) k' = get o k'.
Proof.
  intros N. rewrite get_set.
  destruct (String.eqb k' k) eqn:E; [|reflexivity].
  apply String.eqb_eq in E; contradiction.
Qed.

Lemma get_notin o k : ~ In k (keys o) -> get o k = None.
Proof.
  induction o as [|[k0 v0] o IH]; simpl; intros N; [reflexivity|].
  destruct (String.eqb k k0) eqn:E.
  - apply String.eqb_eq in E; subst; tauto.
  - apply IH; tauto.
Qed.

Lemma get_in o k v : wf o -> In (k, v) o -> get o k = Some v.
Proof.
  unfold wf. induction o as [|[k0 v0] o IH]; simpl; intros W I; [tauto|].
  inversion W as [|? ? N W']; subst.
  destruct I as [I|I].
  - inversion I; subst. rewrite String.eqb_refl; reflexivity.
  - destruct (String.eqb k k0) eqn:E.
    + apply String.eqb_eq in E; subst k0.
      exfalso; apply N. change k with (fst (k, v)). apply in_map, I.
    + apply IH; assumption.
Qed.

Lemma get_some_in o k v : get o k = Some v -> In k (keys o).
Proof.
  induction o as [|[k0 v0] o IH]; simpl; [discriminate|].
  destruct (String.eqb k k0) eqn:E.
  - apply String.eqb_eq in E; subst; tauto.
  - intros G; right; apply IH, G.
Qed.

Lemma set_fresh k v o : ~ In k (keys o) -> set k v o = (o ++ [(k, v)])%list.
Proof.
  induction o as [|[k0 v0] o IH]; simpl; intros N; [reflexivity|].
  destruct (String.eqb k k0) eqn:E.
  - apply String.eqb_eq in E; subst; tauto.
  - rewrite IH; tauto.
Qed.

Lemma keys_set_in k v o : In k (keys o) -> keys (set k v o) = keys o.
Proof.
  induction o as [|[k0 v0] o IH]; simpl; intros I; [tauto|].
  destruct (String.eqb k k0) eqn:E; simpl.
  - apply String.eqb_eq in E; subst; reflexivity.
  - rewrite IH; [reflexivity|]. destruct I as [I|I]; [|assumption].
    subst; rewrite String.eqb_refl in E; discriminate.
Qed.

Lemma in_keys_set k v o k' :
  In k' (keys (set k v o)) <-> k' = k \/ In k' (keys o).
Proof.
  induction o as [|[k0 v0] o IH]; simpl.
  - intuition congruence.
  - destruct (String.eqb k k0) eqn:E; simpl.
    + apply String.eqb_eq in E; subst. intuition congruence.
    + rewrite IH. intuition congruence.
Qed.

Lemma wf_set k v o : wf o -> wf (set k v o).
Proof.
  unfold wf. induction o as [|[k0 v0] o IH]; simpl; intros W.
  - constructor; [simpl; tauto | constructor].
  - inversion W as [|? ? N W']; subst.
    destruct (String.eqb k k0) eqn:E; simpl.
    + apply String.eqb_eq in E; subst. constructor; assumption.
    + constructor; [|apply IH; assumption].
      intros I. apply (in_keys_set k v o k0) in I. destruct I as [I|I].
      * subst; rewrite String.eqb_refl in E; discriminate.
      * contradiction.
Qed.

Lemma spread_snoc f p k v :
  spread f (p ++ [(k, v)])%list = set k v (spread f p).
Proof. unfold spread. rewrite fold_left_app. reflexivity. Qed.

Lemma wf_spread f p : wf f -> wf (spread f p).
Proof.
  revert f. induction p as [|[k v] p IH]; simpl; intros f W; [assumption|].
  apply IH, wf_set, W.
Qed.

(** After a spread a property holds the last value the source gives it,
    or else the value it had in the target. *)
Lemma get_spread f p k :
  get (spread f p) k =
  match get (rev p) k with
  | Some v => Some v
  | None => get f k
  end.
Proof.
  induction p as [|[k1 v1] p IH] using rev_ind; [reflexivity|].
  rewrite spread_snoc, get_set, rev_app_distr. simpl.
  destruct (String.eqb k k1); [reflexivity | exact IH].
Qed.

Lemma wf_rev o : wf o -> wf (rev o).
Proof.
  unfold wf, keys. rewrite map_rev. apply NoDup_rev.
Qed.

Lemma get_rev o k : wf o -> get (rev o) k = get o k.
Proof.
  intros W. destruct (get o k) as [v|] eqn:G.
  - apply get_in; [apply wf_rev, W|].
    apply in_rev. rewrite rev_involutive.
    clear W. induction o as [|[k0 v0] o IH]; simpl in *; [discriminate|].
    destruct (String.eqb k k0) eqn:E.
    + apply String.eqb_eq in E; inversion G; subst; tauto.
    + right; apply IH, G.
  - apply get_notin. intros I.
    unfold keys in I. rewrite map_rev in I. apply in_rev in I.
    destruct (get o k) as [v|] eqn:G'; [discriminate|].
    clear G. revert G'. clear W.
    induction o as [|[k0 v0] o IH]; simpl in *; [tauto|].
    destruct (String.eqb k k0) eqn:E; [discriminate|].
    intros G. destruct I as [I|I]; [|apply IH; assumption].
    subst; rewrite String.eqb_refl in E; discriminate.
Qed.

Lemma get_spread_wf f p k :
  wf p ->
  get (spread f p) k =
  match get p k with
  | Some v => Some v
  | None => get f k
  end.
Proof. intros W. rewrite get_spread, get_rev by assumption. reflexivity. Qed.

Lemma spread_app f p :
  NoDup (keys f ++ keys p) -> spread f p = (f ++ p)%list.
Proof.
  revert f. induction p as [|[k v] p IH]; simpl; intros f N.
  - rewrite app_nil_r; reflexivity.
  - change (spread (set k v f) p = (f ++ (k, v) :: p)%list).
    assert (F : ~ In k (keys f)).
    { intros I. apply NoDup_remove_2 in N. apply N, in_or_app; tauto. }
    rewrite set_fresh by assumption. rewrite IH.
    + rewrite <- app_assoc; reflexivity.
    + unfold keys in *. rewrite map_app. simpl. rewrite <- app_assoc.
      exact N.
Qed.

(** The copy [{ ...o }] has the properties of [o], in the same order. *)
Lemma spread_copy o : wf o -> spread [] o = o.
Proof. intros W. apply (spread_app [] o). exact W. Qed.

Lemma keys_spread_in f p :
  (forall k, In k (keys p) -> In k (keys f)) -> keys (spread f p) = keys f.
Proof.
  revert f. induction p as [|[k v] p IH]; simpl; intros f S; [reflexivity|].
  change (keys (spread (set k v f) p) = keys f).
  rewrite IH.
  - apply keys_set_in, S; tauto.
  - intros k' I. apply in_keys_set. right. apply S; tauto.
Qed.

Lemma in_keys_spread f p k :
  In k (keys (spread f p)) <-> In k (keys p) \/ In k (keys f).
Proof.
  revert f. induction p as [|[k1 v1] p IH]; simpl; intros f; [tauto|].
  change (In k (keys (spread (set k1 v1 f) p)) <->
          (k1 = k \/ In k (keys p)) \/ In k (keys f)).
  rewrite IH, in_keys_set. intuition congruence.
Qed.

(** Two objects with the same property names in the same order and the same
    value under each name are equal. *)
Lemma obj_ext o1 o2 :
  wf o1 -> keys o1 = keys o2 -> (forall k, get o1 k = get o2 k) -> o1 = o2.
Proof.
  revert o2. induction o1 as [|[k1 v1] o1 IH]; intros [|[k2 v2] o2];
    simpl; intros W K G; try discriminate; [reflexivity|].
  inversion K; subst. inversion W as [|? ? N W']; subst.
  pose proof (G k2) as G2. simpl in G2. rewrite String.eqb_refl in G2.
  inversion G2; subst. f_equal. apply IH; [assumption..|].
  intros k. pose proof (G k) as Gk. simpl in Gk.
  destruct (String.eqb k k2) eqn:E; [|exact Gk].
  apply String.eqb_eq in E; subst.
  rewrite (get_notin o1 k2) by assumption.
  rewrite (get_notin o2 k2); [reflexivity|].
  match goal with H : keys o1 = keys o2 |- _ => rewrite <- H end.
  assumption.
Qed.

End ObjectFacts.

(* ================================================================== *)
(** * Facts about numbers *)

Section NumberFacts.

Lemma to_double_exact z : Z.abs z < 2 ^ 53 -> to_double z = z.
Proof.
  intros H. unfold to_double.
  destruct (Z.ltb_spec (Z.abs z) (2 ^ 53)); [reflexivity | lia].
Qed.

Lemma to_double_safe z : safe z -> to_double z = z.
Proof.
  unfold safe, MAX_SAFE_INTEGER. intros H. apply to_double_exact. lia.
Qed.

Lemma round_half_even_bounds A B :
  0 < B ->
  let m := round_half_even (A / B) (A mod B) B in
  A / B <= m <= A / B + 1 /\ 2 * A - B <= 2 * (m * B) <= 2 * A + B.
Proof.
  intros HB m. unfold m, round_half_even.
  pose proof (Z.div_mod A B ltac:(lia)) as D.
  pose proof (Z.mod_pos_bound A B HB) as R.
  destruct (Z.compare_spec (2 * (A mod B)) B);
    [destruct (Z.even (A / B))| |]; nia.
Qed.

Lemma to_double_sign z :
  (z <= 0 -> to_double z <= 0) /\ (0 <= z -> 0 <= to_double z).
Proof.
  unfold to_double.
  destruct (Z.ltb_spec (Z.abs z) (2 ^ 53)); [lia|].
  set (e := Z.log2 (Z.abs z) - 52).
  assert (He : 0 < 2 ^ e).
  { apply Z.pow_pos_nonneg; [lia|]. unfold e.
    assert (53 <= Z.log2 (Z.abs z)); [|lia].
    apply Z.log2_le_pow2; lia. }
  destruct (round_half_even_bounds (Z.abs z) (2 ^ e) He) as [[L _] _].
  assert (0 <= Z.abs z / 2 ^ e) by (apply Z.div_pos; lia).
  set (m := round_half_even _ _ _) in *.
  assert (0 <= m * 2 ^ e) by nia.
  split; intros; [assert (Z.sgn z <= 0) by lia | assert (0 <= Z.sgn z) by lia];
    nia.
Qed.

(** The exponent chosen for a quotient lies at or below its binary
    logarithm. *)
Lemma quotient_exponent_low a b :
  0 < a -> 0 < b ->
  let L := quotient_exponent a b + 52 in
  b * 2 ^ Z.max 0 L <= a * 2 ^ Z.max 0 (- L).
Proof.
  intros Ha Hb. unfold quotient_exponent.
  set (k := Z.log2 a - Z.log2 b).
  destruct (Z.leb_spec (b * 2 ^ Z.max 0 k) (a * 2 ^ Z.max 0 (- k))) as [T|T];
    cbv zeta.
  - replace (k - 52 + 52) with k by lia. exact T.
  - replace (k - 1 - 52 + 52) with (k - 1) by lia.
    destruct (Z.log2_spec a Ha) as [A1 A2].
    destruct (Z.log2_spec b Hb) as [B1 B2].
    pose proof (Z.log2_nonneg a). pose proof (Z.log2_nonneg b).
    destruct (Z.le_gt_cases 1 k) as [K|K].
    + rewrite (Z.max_r 0 (k - 1)), (Z.max_l 0 (- (k - 1))) by lia.
      simpl (2 ^ 0). 
      assert (E : 2 ^ Z.log2 a = 2 ^ (Z.succ (Z.log2 b)) * 2 ^ (k - 1)).
      { rewrite <- Z.pow_add_r by lia. f_equal; lia. }
      assert (0 < 2 ^ (k - 1)) by (apply Z.pow_pos_nonneg; lia).
      nia.
    + rewrite (Z.max_l 0 (k - 1)), (Z.max_r 0 (- (k - 1))) by lia.
      simpl (2 ^ 0).
      assert (E : 2 ^ Z.succ (Z.log2 b) = 2 ^ Z.log2 a * 2 ^ (- (k - 1))).
      { rewrite <- Z.pow_add_r by lia. f_equal; lia. }
      nia.
Qed.

(** For a numerator below 2^53 the quotient is scaled up, by a power of
    two above half the denominator. *)
Lemma quotient_scale a b :
  0 < a < 2 ^ 53 -> 0 < b ->
  let e := quotient_exponent a b in
  e <= 0 /\ b < 2 * 2 ^ (- e).
Proof.
  intros Ha Hb e.
  pose proof (quotient_exponent_low a b ltac:(lia) Hb) as Lw.
  cbv zeta in Lw. fold e in Lw. set (L := e + 52) in *.
  assert (HL : L <= 52).
  { destruct (Z.le_gt_cases L 52) as [|G]; [assumption|exfalso].
    rewrite (Z.max_r 0 L), (Z.max_l 0 (- L)) in Lw by lia.
    simpl (2 ^ 0) in Lw.
    assert (2 ^ 53 <= 2 ^ L) by (apply Z.pow_le_mono_r; lia).
    nia. }
  split; [lia|].
  replace (- e) with (52 - L) by lia.
  destruct (Z.le_gt_cases 0 L) as [P|N].
  - rewrite (Z.max_r 0 L), (Z.max_l 0 (- L)) in Lw by lia.
    simpl (2 ^ 0) in Lw.
    assert (E : 2 ^ 52 = 2 ^ L * 2 ^ (52 - L)).
    { rewrite <- Z.pow_add_r by lia. f_equal; lia. }
    assert (0 < 2 ^ L) by (apply Z.pow_pos_nonneg; lia).
    assert (0 < 2 ^ (52 - L)) by (apply Z.pow_pos_nonneg; lia).
    assert (b * 2 ^ 52 <= a * 2 ^ (52 - L)) by nia.
    assert (a * 2 ^ (52 - L) < 2 ^ 53 * 2 ^ (52 - L)) by nia.
    change (2 ^ 53) with (2 * 2 ^ 52) in *. nia.
  - rewrite (Z.max_l 0 L), (Z.max_r 0 (- L)) in Lw by lia.
    simpl (2 ^ 0) in Lw.
    assert (E : 2 ^ (52 - L) = 2 ^ 52 * 2 ^ (- L)).
    { rewrite <- Z.pow_add_r by lia. f_equal; lia. }
    assert (0 < 2 ^ (- L)) by (apply Z.pow_pos_nonneg; lia).
    change (2 ^ 53) with (2 * 2 ^ 52) in *.
    assert (b * 2 ^ 52 <= a * 2 ^ (- L) * 2 ^ 52) by nia.
    assert (a * (2 ^ (- L) * 2 ^ 52) < 2 * 2 ^ 52 * (2 ^ (- L) * 2 ^ 52)).
    { apply Z.mul_lt_mono_pos_r; lia. }
    nia.
Qed.

Lemma div_between m P n : 0 < P -> n * P <= m < (n + 1) * P -> m / P = n.
Proof.
  intros HP H. symmetry. apply (Z.div_unique_pos m P n (m - n * P)); lia.
Qed.

(** The rounded quotient of a numerator below 2^53 lies on the same side
    of every integer as the exact quotient. *)
Lemma double_quotient_pos_floor_ceiling a b :
  0 < a < 2 ^ 53 -> 0 < b ->
  Qfloor (double_quotient_pos a b) = a / b /\
  Qceiling (double_quotient_pos a b) = - (- a / b).
Proof.
  intros Ha Hb.
  destruct (quotient_scale a b Ha Hb) as [He Hs].
  unfold Qceiling, double_quotient_pos, Qfloor, Qopp. cbn [Qnum Qden].
  set (e := quotient_exponent a b) in *.
  rewrite (Z.max_l 0 e), (Z.max_r 0 (- e)) by lia.
  simpl (2 ^ 0). rewrite !Z.mul_1_r.
  set (P := 2 ^ (- e)) in *.
  assert (HP : 0 < P) by (apply Z.pow_pos_nonneg; lia).
  rewrite Z2Pos.id by assumption.
  destruct (round_half_even_bounds (a * P) b Hb) as [_ [Lo Hi]].
  set (m := round_half_even _ _ _) in *.
  pose proof (Z.div_mod a b ltac:(lia)) as Da.
  pose proof (Z.mod_pos_bound a b Hb) as Ra.
  pose proof (Z.div_mod (- a) b ltac:(lia)) as Dn.
  pose proof (Z.mod_pos_bound (- a) b Hb) as Rn.
  set (n := a / b) in *. set (r := a mod b) in *.
  set (c := - a / b) in *. set (r' := (- a) mod b) in *.
  split.
  - apply div_between; [assumption|]. split.
    + destruct (Z.le_gt_cases (n * P) m) as [|G]; [assumption|exfalso].
      assert (m * b <= (n * P - 1) * b) by (apply Z.mul_le_mono_nonneg_r; lia).
      assert (n * b * P <= a * P) by (apply Z.mul_le_mono_nonneg_r; lia).
      lia.
    + destruct (Z.lt_ge_cases m ((n + 1) * P)) as [|G]; [assumption|exfalso].
      assert ((n + 1) * P * b <= m * b) by (apply Z.mul_le_mono_nonneg_r; lia).
      assert (a * P <= (n * b + (b - 1)) * P)
        by (apply Z.mul_le_mono_nonneg_r; lia).
      lia.
  - f_equal. apply div_between; [assumption|]. split.
    + destruct (Z.le_gt_cases (c * P) (- m)) as [|G]; [assumption|exfalso].
      assert ((- c * P + 1) * b <= m * b)
        by (apply Z.mul_le_mono_nonneg_r; lia).
      assert (a * P <= (- c * b) * P) by (apply Z.mul_le_mono_nonneg_r; lia).
      lia.
    + destruct (Z.lt_ge_cases (- m) ((c + 1) * P)) as [|G];
        [assumption|exfalso].
      assert (m * b <= (- (c + 1) * P) * b)
        by (apply Z.mul_le_mono_nonneg_r; lia).
      assert ((- c * b - (b - 1)) * P <= a * P)
        by (apply Z.mul_le_mono_nonneg_r; lia).
      lia.
Qed.

Lemma Qfloor_opp q : Qfloor (- q) = - Qceiling q.
Proof. unfold Qceiling. lia. Qed.

Lemma Qceiling_opp q : Qceiling (- q) = - Qfloor q.
Proof.
  unfold Qceiling. f_equal. apply Qfloor_comp. apply Qopp_involutive.
Qed.

(** [Math.floor(x / y)] and [Math.ceil(x / y)] are the floor and the
    ceiling of the exact quotient when [x] is a safe integer. *)
Lemma double_quotient_floor_ceiling x y :
  Z.abs x < 2 ^ 53 -> y <> 0 ->
  Qfloor (double_quotient x y) = x / y /\
  Qceiling (double_quotient x y) = - (- x / y).
Proof.
  intros Hx Hy. unfold double_quotient.
  destruct (Z.eqb_spec x 0) as [->|Nx].
  - rewrite Z.div_0_l by assumption. split; reflexivity.
  - destruct (double_quotient_pos_floor_ceiling (Z.abs x) (Z.abs y))
      as [F C]; [lia | lia |].
    pose proof (Z.div_opp_opp x y Hy) as E1.
    pose proof (Z.div_opp_opp (- x) y Hy) as E2.
    rewrite Z.opp_involutive in E2.
    destruct (Z.ltb_spec (Z.sgn x * Z.sgn y) 0) as [S|S];
      rewrite ?Qfloor_opp, ?Qceiling_opp, F, C;
      destruct (Z.abs_spec x) as [[Px ->]|[Px ->]];
      destruct (Z.abs_spec y) as [[Py ->]|[Py ->]]; try nia;
      rewrite ?Z.opp_involutive; split; lia.
Qed.



End NumberFacts.

(** [JSON.stringify] on filter states: a property whose value is undefined
    leaves no trace, so a cleared search box serializes like no search. *)
Example stringify_filters :
  JSON_stringify [("skip", JNum 0); ("limit", JNum 20);
                  ("search", JStr "Apple")]
  = "{" ++ json_quote "skip" ++ ":0," ++ json_quote "limit" ++ ":20,"
        ++ json_quote "search" ++ ":" ++ json_quote "Apple" ++ "}".
Proof. reflexivity. Qed.

Example stringify_skips_undefined :
  JSON_stringify [("skip", JNum 0); ("limit", JNum 20);
                  ("search", JUndefined)]
  = JSON_stringify [("skip", JNum 0); ("limit", JNum 20)].
Proof. reflexivity. Qed.

Example stringify_escapes :
  json_quote (String "034" (String "010" "\"))
  = String "034" (String "\" (String "034" ("\n\\" ++ String "034" ""))).
Proof. reflexivity. Qed.

(* ================================================================== *)
(** * The filter state *)

Import UseDocuments Spec.

(** Well-formedness of an object written out in full. *)
Ltac wf_literal :=
  unfold wf; simpl; repeat constructor; simpl; intuition discriminate.

Section Filters.

Implicit Types (prev p f : Obj) (k : string) (v : JSVal).

Lemma set_same_value k v o : get o k = Some v -> set k v o = o.
Proof.
  induction o as [|[k0 v0] o IH]; simpl; [discriminate|].
  destruct (String.eqb k k0) eqn:E; intros G.
  - apply String.eqb_eq in E; inversion G; subst; reflexivity.
  - rewrite IH by assumption; reflexivity.
Qed.

Lemma set_twice k v v' o : set k v (set k v' o) = set k v o.
Proof.
  induction o as [|[k0 v0] o IH]; simpl.
  - rewrite String.eqb_refl; reflexivity.
  - destruct (String.eqb k k0) eqn:E; simpl.
    + rewrite String.eqb_refl; reflexivity.
    + rewrite E, IH; reflexivity.
Qed.

Lemma wf_updateFilters p prev : wf (updateFilters p prev).
Proof.
  unfold updateFilters. apply wf_set, wf_spread, wf_spread. constructor.
Qed.

Lemma get_updateFilters p prev k :
  wf prev ->
  get (updateFilters p prev) k =
  if String.eqb k "skip" then Some (JNum 0)
  else match get (rev p) k with
       | Some v => Some v
       | None => get prev k
       end.
Proof.
  intros W. unfold updateFilters.
  rewrite get_set, get_spread, spread_copy by assumption. reflexivity.
Qed.

Lemma updateFilters_idempotent p prev :
  wf prev -> updateFilters p (updateFilters p prev) = updateFilters p prev.
Proof.
  intros W. apply obj_ext.
  - apply wf_updateFilters.
  - unfold updateFilters at 1.
    rewrite spread_copy by apply wf_updateFilters.
    rewrite keys_set_in.
    + apply keys_spread_in. intros k I.
      unfold updateFilters. apply in_keys_set. right.
      apply in_keys_spread. left; assumption.
    + apply in_keys_spread. right.
      unfold updateFilters. apply in_keys_set. left; reflexivity.
  - intros k.
    rewrite (get_updateFilters p (updateFilters p prev))
      by apply wf_updateFilters.
    rewrite get_updateFilters by assumption.
    destruct (String.eqb k "skip"); [reflexivity|].
    destruct (get (rev p) k); reflexivity.
Qed.

(** C2, as amended: for every prior filter state and every payload [p],
    [updateFilters(p)] yields a state whose [skip] is 0, in which every key
    of [p] other than [skip] carries the value [p] gives it and every key
    other than [skip] that [p] lacks keeps its prior value. *)
Theorem updateFilters_merges prev p :
  wf prev -> wf p ->
  get (updateFilters p prev) "skip" = Some (JNum 0) /\
  (forall k v, k <> "skip" -> In (k, v) p ->
     get (updateFilters p prev) k = Some v) /\
  (forall k, k <> "skip" -> ~ In k (keys p) ->
     get (updateFilters p prev) k = get prev k).
Proof.
  intros W Wp. split; [|split].
  - rewrite get_updateFilters by assumption. reflexivity.
  - intros k v N I. rewrite get_updateFilters by assumption.
    apply String.eqb_neq in N. rewrite N.
    rewrite get_rev, (get_in p k v) by assumption. reflexivity.
  - intros k N I. rewrite get_updateFilters by assumption.
    apply String.eqb_neq in N. rewrite N.
    rewrite get_rev, get_notin by assumption. reflexivity.
Qed.

Lemma updateFilters_merges_witness :
  let prev := [("skip", JNum 40); ("limit", JNum 20);
               ("search", JStr "Apple")] in
  let p := [("filing_type", JStr "10-K"); ("search", JUndefined)] in
  get (updateFilters p prev) "skip" = Some (JNum 0) /\
  get (updateFilters p prev) "filing_type" = Some (JStr "10-K") /\
  get (updateFilters p prev) "search" = Some JUndefined /\
  get (updateFilters p prev) "limit" = Some (JNum 20).
Proof.
  intros prev p.
  destruct (updateFilters_merges prev p) as (S & P & K);
    [wf_literal | wf_literal |].
  split; [exact S|]. split; [|split].
  - apply P; [discriminate | simpl; tauto].
  - apply P; [discriminate | simpl; tauto].
  - rewrite K; [reflexivity | discriminate | simpl; intuition discriminate].
Defined.

(** C2, as stated, fails on a payload that carries [skip]: the key is
    present in the payload and does not carry the payload's value. *)
Lemma updateFilters_skip_overridden :
  ~ (forall prev p, wf prev -> wf p ->
       get (updateFilters p prev) "skip" = Some (JNum 0) /\
       (forall k v, In (k, v) p -> get (updateFilters p prev) k = Some v)).
Proof.
  intros H.
  destruct (H default_filters [("skip", JNum 5)]) as [_ P];
    [wf_literal | wf_literal |].
  specialize (P "skip" (JNum 5) (or_introl eq_refl)).
  vm_compute in P. discriminate.
Qed.

End Filters.

(* ================================================================== *)
(** * Paging *)

Section Paging.

Implicit Types (h : Hook) (prev f : Obj) (k : string) (v : JSVal).

Lemma get_prop f k v : get f k = Some v -> prop f k = v.
Proof. unfold prop. intros ->. reflexivity. Qed.

Lemma get_in_pair f k v : get f k = Some v -> In (k, v) f.
Proof.
  induction f as [|[k0 v0] f IH]; simpl; [discriminate|].
  destruct (String.eqb k k0) eqn:E; intros G.
  - apply String.eqb_eq in E. inversion G; subst. left; reflexivity.
  - right. apply IH, G.
Qed.

Lemma fetchDocuments_filters h : filters (fst (fetchDocuments h)) = filters h.
Proof.
  unfold fetchDocuments.
  destruct (match prevFiltersRef h with
            | Some prev => String.eqb prev (JSON_stringify (filters h))
            | None => false
            end); reflexivity.
Qed.

Lemma call_updater c h :
  call c h =
  match updater c (filters h) with
  | Some f =>
      Some (fst (fetchDocuments (setFilters f h)),
            requests_of (snd (fetchDocuments (setFilters f h))))
  | None => None
  end.
Proof.
  unfold call. destruct (updater c (filters h)); [|reflexivity].
  destruct (fetchDocuments (setFilters o h)); reflexivity.
Qed.

Lemma call_filters c h f :
  updater c (filters h) = Some f ->
  exists h' r, call c h = Some (h', r) /\ filters h' = f.
Proof.
  intros U. rewrite call_updater, U.
  eexists _, _. split; [reflexivity|].
  rewrite fetchDocuments_filters. reflexivity.
Qed.

Lemma nextPage_value prev s l :
  wf prev ->
  get prev "skip" = Some (JNum s) -> get prev "limit" = Some (JNum l) ->
  nextPage prev = Some (set "skip" (JNum (to_double (s + l))) prev).
Proof.
  intros W S L. unfold nextPage.
  rewrite (get_prop _ _ _ S), (get_prop _ _ _ L). simpl.
  rewrite spread_copy by assumption. reflexivity.
Qed.

Lemma prevPage_value prev s l :
  wf prev ->
  get prev "skip" = Some (JNum s) -> get prev "limit" = Some (JNum l) ->
  prevPage prev
  = Some (set "skip" (JNum (Z.max 0 (to_double (s - l)))) prev).
Proof.
  intros W S L. unfold prevPage.
  rewrite (get_prop _ _ _ S), (get_prop _ _ _ L). simpl.
  rewrite spread_copy by assumption. reflexivity.
Qed.

Lemma goToPage_value prev n l :
  wf prev ->
  get prev "limit" = Some (JNum l) ->
  goToPage (JNum n) prev = Some (set "skip" (JNum (to_double (n * l))) prev).
Proof.
  intros W L. unfold goToPage.
  rewrite (get_prop _ _ _ L). simpl.
  rewrite spread_copy by assumption. reflexivity.
Qed.

(** [Math.max(0, skip - limit)], for a safe [skip] that is not negative. *)
Lemma prevPage_skip s l :
  0 <= s <= MAX_SAFE_INTEGER -> 0 <= l ->
  Z.max 0 (to_double (s - l)) = Z.max 0 (s - l).
Proof.
  unfold MAX_SAFE_INTEGER. intros Hs Hl.
  destruct (Z.le_gt_cases 0 (s - l)) as [P|N].
  - rewrite to_double_exact by lia. reflexivity.
  - destruct (to_double_sign (s - l)) as [Neg _]. lia.
Qed.

(** C6, as amended: for every filter state whose [skip] is not negative,
    with [skip] and [skip + limit] safe integers, [nextPage()] followed by
    [prevPage()] restores the original [skip]; the limit is the same
    throughout, and so is the rest of the filter state. *)
Theorem nextPage_prevPage_round_trip h s l :
  wf (filters h) ->
  get (filters h) "skip" = Some (JNum s) ->
  get (filters h) "limit" = Some (JNum l) ->
  0 <= s -> safe s -> safe (s + l) ->
  exists h1 r1 h2 r2,
    call NextPage h = Some (h1, r1) /\
    call PrevPage h1 = Some (h2, r2) /\
    get (filters h1) "skip" = Some (JNum (s + l)) /\
    get (filters h1) "limit" = Some (JNum l) /\
    get (filters h2) "skip" = Some (JNum s) /\
    filters h2 = filters h.
Proof.
  intros W S L P Ss Sl.
  destruct (call_filters NextPage h _ (nextPage_value _ _ _ W S L))
    as (h1 & r1 & C1 & F1).
  rewrite (to_double_safe _ Sl) in F1.
  assert (S1 : get (filters h1) "skip" = Some (JNum (s + l)))
    by (rewrite F1; apply get_set_same).
  assert (L1 : get (filters h1) "limit" = Some (JNum l))
    by (rewrite F1, get_set_other; [assumption | discriminate]).
  assert (W1 : wf (filters h1)) by (rewrite F1; apply wf_set, W).
  destruct (call_filters PrevPage h1 _ (prevPage_value _ _ _ W1 S1 L1))
    as (h2 & r2 & C2 & F2).
  assert (E : filters h2 = filters h).
  { rewrite F2, F1, set_twice.
    replace (s + l - l) with s by lia.
    rewrite (to_double_safe _ Ss).
    replace (Z.max 0 s) with s by lia.
    apply set_same_value, S. }
  exists h1, r1, h2, r2. repeat split; try assumption.
  rewrite E; assumption.
Qed.

Lemma nextPage_prevPage_round_trip_witness :
  let h := setFilters [("skip", JNum 40); ("limit", JNum 20);
                       ("search", JStr "Apple")] (useDocuments []) in
  exists h1 r1 h2 r2,
    call NextPage h = Some (h1, r1) /\
    call PrevPage h1 = Some (h2, r2) /\
    get (filters h1) "skip" = Some (JNum 60) /\
    get (filters h1) "limit" = Some (JNum 20) /\
    get (filters h2) "skip" = Some (JNum 40) /\
    filters h2 = filters h.
Proof.
  intros h.
  apply (nextPage_prevPage_round_trip h 40 20);
    [wf_literal | reflexivity | reflexivity | lia
     | unfold safe, MAX_SAFE_INTEGER; lia
     | unfold safe, MAX_SAFE_INTEGER; lia].
Defined.

(** C6, as stated, fails at the largest safe integer: with
    [skip = 9007199254740991] and [limit = 2] the sum is rounded to
    [2^53], and [prevPage] comes back to [9007199254740990]. *)
Lemma nextPage_prevPage_loses_skip :
  let h := setFilters [("skip", JNum 9007199254740991); ("limit", JNum 2)]
                      (useDocuments []) in
  exists h1 r1 h2 r2,
    call NextPage h = Some (h1, r1) /\
    call PrevPage h1 = Some (h2, r2) /\
    get (filters h) "skip" = Some (JNum 9007199254740991) /\
    get (filters h1) "skip" = Some (JNum 9007199254740992) /\
    get (filters h1) "limit" = Some (JNum 2) /\
    get (filters h2) "skip" = Some (JNum 9007199254740990) /\
    get (filters h2) "skip" <> get (filters h) "skip".
Proof.
  intros h. eexists _, _, _, _.
  split; [vm_compute; reflexivity|]. split; [vm_compute; reflexivity|].
  repeat split. vm_compute. discriminate.
Qed.

(** ** The paging invariant *)

Lemma paging_invariant_updater c f :
  paging_invariant f ->
  (forall s, get f "skip" = Some (JNum s) -> s <= MAX_SAFE_INTEGER) ->
  sound_call c -> call_safe c f = true ->
  exists f', updater c f = Some f' /\ paging_invariant f' /\
             (forall s, get f' "skip" = Some (JNum s) ->
                        s <= MAX_SAFE_INTEGER).
Proof.
  intros (W & s & l & S & L & Pl & Ps & D) B V Sf.
  pose proof (B s S) as Bs.
  assert (M : 0 <= MAX_SAFE_INTEGER) by (unfold MAX_SAFE_INTEGER; lia).
  destruct c as [p| | | | |page]; simpl in *.
  - eexists; split; [reflexivity|].
    assert (Sk : get (updateFilters p f) "skip" = Some (JNum 0))
      by (rewrite get_updateFilters by assumption; reflexivity).
    split; [split; [apply wf_updateFilters|]|].
    + destruct (get (rev p) "limit") as [v|] eqn:G.
      * pose proof (get_in_pair _ _ _ G) as I. apply in_rev in I.
        unfold sound_payload in V. rewrite Forall_forall in V.
        destruct (V _ I eq_refl) as (l' & E & Pl'). simpl in E. subst v.
        exists 0, l'. rewrite !get_updateFilters by assumption. simpl.
        rewrite G. repeat split; try lia. apply Z.divide_0_r.
      * exists 0, l. rewrite !get_updateFilters by assumption. simpl.
        rewrite G. repeat split; try assumption; try lia.
        apply Z.divide_0_r.
    + intros s' G'. rewrite Sk in G'. injection G' as <-. exact M.
  - eexists; split; [reflexivity|]. split; [split; [wf_literal|]|].
    + exists 0, 20. repeat split; try reflexivity; try lia.
      apply Z.divide_0_r.
    + intros s' G'. injection G' as <-. exact M.
  - exists f. unfold refetch. rewrite spread_copy by assumption.
    split; [reflexivity|]. split; [|assumption].
    split; [assumption|]. exists s, l. tauto.
  - rewrite (get_prop _ _ _ S), (get_prop _ _ _ L) in Sf.
    apply Z.leb_le in Sf. pose proof Sf as Bn.
    rewrite (nextPage_value f s l) by assumption.
    rewrite to_double_safe by (unfold safe; lia).
    eexists; split; [reflexivity|]. split; [split; [apply wf_set, W|]|].
    + exists (s + l), l. rewrite get_set_same.
      rewrite get_set_other by discriminate.
      repeat split; try assumption; try lia.
      apply Z.divide_add_r; [assumption | apply Z.divide_refl].
    + intros s' G'. rewrite get_set_same in G'. injection G' as <-.
      exact Bn.
  - rewrite (prevPage_value f s l) by assumption.
    rewrite prevPage_skip by lia.
    eexists; split; [reflexivity|]. split; [split; [apply wf_set, W|]|].
    + exists (Z.max 0 (s - l)), l. rewrite get_set_same.
      rewrite get_set_other by discriminate.
      repeat split; try assumption; try lia.
      destruct (Z.max_spec 0 (s - l)) as [[_ ->]|[_ ->]].
      * apply Z.divide_sub_r; [assumption | apply Z.divide_refl].
      * apply Z.divide_0_r.
    + intros s' G'. rewrite get_set_same in G'. injection G' as <-. lia.
  - destruct V as (n & -> & Pn).
    rewrite (get_prop _ _ _ L) in Sf.
    apply Z.leb_le in Sf. pose proof Sf as Bn.
    assert (0 <= n * l) by nia.
    rewrite (goToPage_value f n l) by assumption.
    rewrite to_double_safe by (unfold safe; lia).
    eexists; split; [reflexivity|]. split; [split; [apply wf_set, W|]|].
    + exists (n * l), l. rewrite get_set_same.
      rewrite get_set_other by discriminate.
      repeat split; try assumption.
      apply Z.divide_factor_r.
    + intros s' G'. rewrite get_set_same in G'. injection G' as <-.
      exact Bn.
Qed.

Lemma paging_invariant_run es : forall h,
  paging_invariant (filters h) ->
  (forall s, get (filters h) "skip" = Some (JNum s) ->
             s <= MAX_SAFE_INTEGER) ->
  Forall sound_event es -> within_safe es h = true ->
  exists h' r, run es h = Some (h', r) /\ paging_invariant (filters h') /\
               (forall s, get (filters h') "skip" = Some (JNum s) ->
                          s <= MAX_SAFE_INTEGER).
Proof.
  induction es as [|e es IH]; intros h I B V Sf.
  - exists h, []. split; [reflexivity |]. split; assumption.
  - inversion V as [|? ? Ve Ves]; subst.
    simpl in Sf. apply andb_prop in Sf. destruct Sf as [Se Ses].
    assert (exists h1 r1, step e h = Some (h1, r1) /\
                          paging_invariant (filters h1) /\
                          (forall s, get (filters h1) "skip" = Some (JNum s) ->
                                     s <= MAX_SAFE_INTEGER))
      as (h1 & r1 & E1 & I1 & B1).
    { destruct e as [c|o]; simpl.
      - destruct (paging_invariant_updater c _ I B Ve Se)
          as (f' & U & I' & B').
        destruct (call_filters c h f' U) as (h1 & r1 & C & F).
        exists h1, r1. rewrite F. tauto.
      - eexists _, _. split; [reflexivity|]. destruct o; split; assumption. }
    rewrite E1 in Ses.
    destruct (IH h1 I1 B1 Ves Ses) as (h2 & r2 & E2 & I2 & B2).
    exists h2, (r1 ++ r2)%list. simpl. rewrite E1, E2. tauto.
Qed.

Lemma paging_invariant_mount : paging_invariant (filters (fst (mount []))).
Proof.
  split; [wf_literal|]. exists 0, 20.
  repeat split; try reflexivity; try lia. apply Z.divide_0_r.
Qed.

(** C3, as amended: starting from the initial state [{skip:0, limit:20}],
    after every sequence of calls of [updateFilters], [clearFilters],
    [refetch], [nextPage], [prevPage] and [goToPage] with a non-negative
    page, interleaved with any settled requests, [skip] is a non-negative
    multiple of [limit], provided no payload of [updateFilters] sets [limit]
    to anything but a non-negative integer and no call of [nextPage] or
    [goToPage] takes [skip] past [Number.MAX_SAFE_INTEGER]; and from the
    state reached, [updateFilters] and [clearFilters] reset [skip] to 0. *)
Theorem paging_invariant_holds es :
  Forall sound_event es ->
  within_safe es (fst (mount [])) = true ->
  exists h r,
    run es (fst (mount [])) = Some (h, r) /\
    paging_invariant (filters h) /\
    (forall p, exists h' r',
        call (UpdateFilters p) h = Some (h', r') /\
        get (filters h') "skip" = Some (JNum 0)) /\
    (exists h' r',
        call ClearFilters h = Some (h', r') /\
        get (filters h') "skip" = Some (JNum 0)).
Proof.
  intros V Sf.
  destruct (paging_invariant_run es _ paging_invariant_mount) as
    (h & r & R & I & _); [| exact V | exact Sf |].
  { intros s G. injection G as <-. unfold MAX_SAFE_INTEGER. lia. }
  exists h, r. split; [assumption|]. split; [assumption|]. split.
  - intros p.
    destruct (call_filters (UpdateFilters p) h _ eq_refl) as (h' & r' & C & F).
    exists h', r'. split; [assumption|]. rewrite F.
    unfold updateFilters. apply get_set_same.
  - destruct (call_filters ClearFilters h _ eq_refl) as (h' & r' & C & F).
    exists h', r'. split; [assumption|]. rewrite F. reflexivity.
Qed.

Lemma paging_invariant_holds_witness :
  exists h r,
    run [Invoke (UpdateFilters [("search", JStr "Apple")]);
         Invoke NextPage; Invoke NextPage; Invoke PrevPage;
         Invoke (GoToPage (JNum 3)); Settle (Rejected NoResponse)]
        (fst (mount [])) = Some (h, r) /\
    paging_invariant (filters h).
Proof.
  destruct (paging_invariant_holds
              [Invoke (UpdateFilters [("search", JStr "Apple")]);
               Invoke NextPage; Invoke NextPage; Invoke PrevPage;
               Invoke (GoToPage (JNum 3)); Settle (Rejected NoResponse)])
    as (h & r & R & I & _).
  - repeat constructor; simpl.
    + intros E; discriminate.
    + exists 3; split; [reflexivity | lia].
  - vm_compute. reflexivity.
  - exists h, r. split; assumption.
Defined.

(** C3, as stated, fails: a payload may set a negative [limit], after which
    [nextPage] makes [skip] negative. *)
Lemma negative_limit_breaks_paging_invariant :
  exists h r,
    run [Invoke (UpdateFilters [("limit", JNum (-20))]); Invoke NextPage]
        (fst (mount [])) = Some (h, r) /\
    get (filters h) "skip" = Some (JNum (-20)) /\
    get (filters h) "limit" = Some (JNum (-20)) /\
    ~ paging_invariant (filters h).
Proof.
  eexists _, _. split; [vm_compute; reflexivity|].
  split; [reflexivity|]. split; [reflexivity|].
  intros (_ & s & l & S & _ & _ & Ps & _).
  vm_compute in S. inversion S; subst. lia.
Qed.

End Paging.

(* ================================================================== *)
(** * Derived values *)

Section DerivedValues.

Implicit Types (h : Hook).

Lemma currentPage_value h s l :
  get (filters h) "skip" = Some (JNum s) ->
  get (filters h) "limit" = Some (JNum l) ->
  Z.abs s <= MAX_SAFE_INTEGER -> l <> 0 ->
  currentPage h = Some (JNum (s / l)).
Proof.
  intros S L B N. unfold currentPage.
  rewrite (get_prop _ _ _ S), (get_prop _ _ _ L). simpl.
  destruct (Z.eqb_spec l 0) as [E|_]; [contradiction|]. simpl.
  unfold Math_floor. unfold MAX_SAFE_INTEGER in B.
  destruct (double_quotient_floor_ceiling s l) as [F _]; [lia | assumption |].
  rewrite F. reflexivity.
Qed.

Lemma totalPages_value h t l :
  total h = JNum t ->
  get (filters h) "limit" = Some (JNum l) ->
  Z.abs t <= MAX_SAFE_INTEGER -> l <> 0 ->
  totalPages h = Some (JNum (- (- t / l))).
Proof.
  intros T L B N. unfold totalPages.
  rewrite T, (get_prop _ _ _ L). simpl.
  destruct (Z.eqb_spec l 0) as [E|_]; [contradiction|]. simpl.
  unfold Math_ceil. unfold MAX_SAFE_INTEGER in B.
  destruct (double_quotient_floor_ceiling t l) as [_ C]; [lia | assumption |].
  rewrite C. reflexivity.
Qed.


(** C7, as amended: for all safe integers [skip >= 0] and [total >= 0] and
    every integer [limit > 0] the hook returns
    [currentPage = floor(skip/limit)], the integer [c] with
    [c*limit <= skip < (c+1)*limit], and [totalPages = ceil(total/limit)],
    the integer [n] with [(n-1)*limit < total <= n*limit]; both are
    functions of the current [skip], [limit] and [total] alone. *)
Theorem derived_pages h s l t :
  get (filters h) "skip" = Some (JNum s) ->
  get (filters h) "limit" = Some (JNum l) ->
  total h = JNum t ->
  0 <= s <= MAX_SAFE_INTEGER -> 0 <= t <= MAX_SAFE_INTEGER -> 0 < l ->
  (exists c n,
      currentPage h = Some (JNum c) /\
      totalPages h = Some (JNum n) /\
      c * l <= s < (c + 1) * l /\
      (n - 1) * l < t <= n * l /\
      0 <= c /\ 0 <= n) /\
  (forall h',
      prop (filters h') "skip" = prop (filters h) "skip" ->
      prop (filters h') "limit" = prop (filters h) "limit" ->
      total h' = total h ->
      currentPage h' = currentPage h /\ totalPages h' = totalPages h).
Proof.
  intros S L T Ps Pt Pl. split.
  - exists (s / l), (- (- t / l)).
    rewrite (currentPage_value h s l), (totalPages_value h t l)
      by (assumption || lia).
    split; [reflexivity|]. split; [reflexivity|].
    pose proof (Z.div_mod s l ltac:(lia)) as Ds.
    pose proof (Z.mod_pos_bound s l Pl) as Bs.
    pose proof (Z.div_mod (- t) l ltac:(lia)) as Dt.
    pose proof (Z.mod_pos_bound (- t) l Pl) as Bt.
    repeat split; nia.
  - intros h' ES EL ET. unfold currentPage, totalPages.
    rewrite ES, EL, ET. split; reflexivity.
Qed.

Lemma derived_pages_witness :
  let h := on_fulfilled {| items := []; data_total := JNum 45 |}
             (setFilters [("skip", JNum 40); ("limit", JNum 20)]
                         (useDocuments [])) in
  exists c n,
    currentPage h = Some (JNum c) /\
    totalPages h = Some (JNum n) /\
    c * 20 <= 40 < (c + 1) * 20 /\
    (n - 1) * 20 < 45 <= n * 20 /\
    0 <= c /\ 0 <= n.
Proof.
  intros h.
  apply (derived_pages h 40 20 45);
    [reflexivity | reflexivity | reflexivity
     | unfold MAX_SAFE_INTEGER; lia | unfold MAX_SAFE_INTEGER; lia | lia].
Defined.

(** C7, as stated, fails beyond the safe integers: mounted with
    [skip = 2^55] and [limit = 5], the quotient [7205759403792793.6] is
    rounded to the double [7205759403792794] before [Math.floor] sees it,
    so [currentPage * limit] exceeds [skip]. *)
Lemma currentPage_rounds_beyond_safe :
  let h := fst (mount [("skip", JNum 36028797018963968); ("limit", JNum 5)]) in
  get (filters h) "skip" = Some (JNum 36028797018963968) /\
  get (filters h) "limit" = Some (JNum 5) /\
  currentPage h = Some (JNum 7205759403792794) /\
  ~ (exists c, currentPage h = Some (JNum c) /\
               c * 5 <= 36028797018963968 < (c + 1) * 5).
Proof.
  intros h.
  assert (C : currentPage h = Some (JNum 7205759403792794))
    by (vm_compute; reflexivity).
  split; [reflexivity|]. split; [reflexivity|]. split; [exact C|].
  intros (c & E & B). rewrite C in E. injection E as <-. lia.
Qed.

(** C8, as amended: [goToPage(n)] sets [skip = n * limit] whatever [total]
    is, as long as the product is a safe integer, and the response that then
    arrives is stored as it is, the filter state staying where [goToPage]
    put it; with [total = 45] and [limit = 20] there are 3 pages,
    [goToPage(2)] sets [skip = 40], and the 5 items and the total 45 of the
    response are stored unchanged. *)
Theorem goToPage_unchecked h n l :
  wf (filters h) ->
  get (filters h) "limit" = Some (JNum l) ->
  safe (n * l) ->
  exists h1 r1,
    call (GoToPage (JNum n)) h = Some (h1, r1) /\
    get (filters h1) "skip" = Some (JNum (n * l)) /\
    get (filters h1) "limit" = Some (JNum l) /\
    documents h1 = documents h /\ total h1 = total h /\
    (forall data,
        documents (settle (Fulfilled data) h1) = items data /\
        total (settle (Fulfilled data) h1) = data_total data /\
        filters (settle (Fulfilled data) h1) = filters h1) /\
    (total h = JNum 45 -> l = 20 -> n = 2 ->
     totalPages h = Some (JNum 3) /\
     get (filters h1) "skip" = Some (JNum 40) /\
     forall d1 d2 d3 d4 d5,
       let data := {| items := [d1; d2; d3; d4; d5];
                      data_total := JNum 45 |} in
       documents (settle (Fulfilled data) h1) = [d1; d2; d3; d4; d5] /\
       total (settle (Fulfilled data) h1) = JNum 45 /\
       get (filters (settle (Fulfilled data) h1)) "skip" = Some (JNum 40)).
Proof.
  intros W L Sf.
  pose proof (goToPage_value _ n l W L) as G.
  rewrite (to_double_safe _ Sf) in G.
  destruct (call_filters (GoToPage (JNum n)) h _ G) as (h1 & r1 & C & F).
  assert (S1 : get (filters h1) "skip" = Some (JNum (n * l)))
    by (rewrite F; apply get_set_same).
  exists h1, r1. split; [assumption|]. split; [assumption|].
  split; [rewrite F, get_set_other; [assumption | discriminate]|].
  assert (D : documents h1 = documents h /\ total h1 = total h).
  { rewrite call_updater in C. simpl in C.
    rewrite G in C. inversion C; subst.
    unfold fetchDocuments.
    match goal with |- context [if ?b then _ else _] => destruct b end;
      split; reflexivity. }
  destruct D as [D1 D2]. split; [assumption|]. split; [assumption|].
  split; [intros data; repeat split|].
  intros T -> ->. split.
  - rewrite (totalPages_value h 45 20)
      by (assumption || unfold MAX_SAFE_INTEGER; lia).
    reflexivity.
  - split; [exact S1|]. intros d1 d2 d3 d4 d5 data.
    repeat split. exact S1.
Qed.

Lemma goToPage_unchecked_witness :
  let h := on_fulfilled {| items := []; data_total := JNum 45 |}
             (fst (mount [])) in
  exists h1 r1,
    call (GoToPage (JNum 2)) h = Some (h1, r1) /\
    get (filters h1) "skip" = Some (JNum 40) /\
    totalPages h = Some (JNum 3).
Proof.
  intros h.
  destruct (goToPage_unchecked h 2 20) as (h1 & r1 & C & _ & _ & _ & _ & _ & K);
    [wf_literal | reflexivity | unfold safe, MAX_SAFE_INTEGER; lia |].
  destruct K as (T & S & _); [reflexivity | reflexivity | reflexivity |].
  exists h1, r1. repeat split; assumption.
Defined.

(** C8, as stated, fails beyond the safe integers: with [limit = 20],
    [goToPage(1801439850948199)] stores the double nearest to the product,
    [36028797018963984], which is not [n * limit = 36028797018963980] and
    not a multiple of [limit]. *)
Lemma goToPage_rounds_beyond_safe :
  let h := fst (mount []) in
  exists h1 r1,
    call (GoToPage (JNum 1801439850948199)) h = Some (h1, r1) /\
    get (filters h) "limit" = Some (JNum 20) /\
    get (filters h1) "skip" = Some (JNum 36028797018963984) /\
    get (filters h1) "skip" <> Some (JNum (1801439850948199 * 20)) /\
    36028797018963984 mod 20 = 4.
Proof.
  intros h. eexists _, _.
  split; [vm_compute; reflexivity|].
  split; [reflexivity|]. split; [reflexivity|].
  split; [vm_compute; discriminate | reflexivity].
Qed.

End DerivedValues.

(* ================================================================== *)
(** * The fetch protocol *)

Section FetchProtocol.

Implicit Types (h : Hook) (f p : Obj) (es : list Event).

Lemma setFilters_same h : setFilters (filters h) h = h.
Proof. destruct h; reflexivity. Qed.

(** Once the effect has run, the remembered text is that of the current
    filters. *)
Lemma fetchDocuments_remembers h :
  prevFiltersRef (fst (fetchDocuments h)) = Some (JSON_stringify (filters h)).
Proof.
  unfold fetchDocuments. destruct (prevFiltersRef h) as [prev|] eqn:P; simpl.
  - destruct (String.eqb prev (JSON_stringify (filters h))) eqn:E; simpl.
    + apply String.eqb_eq in E. rewrite P, E. reflexivity.
    + reflexivity.
  - reflexivity.
Qed.

(** The guard: no request while the serialized filters are the remembered
    ones. *)
Lemma fetchDocuments_guard h :
  prevFiltersRef h = Some (JSON_stringify (filters h)) ->
  fetchDocuments h = (h, None).
Proof.
  intros R. unfold fetchDocuments. rewrite R, String.eqb_refl. reflexivity.
Qed.

Lemma call_remembers c h h1 r1 :
  call c h = Some (h1, r1) ->
  prevFiltersRef h1 = Some (JSON_stringify (filters h1)).
Proof.
  rewrite call_updater. destruct (updater c (filters h)) as [f|];
    [|discriminate].
  intros E; inversion E; subst.
  rewrite fetchDocuments_remembers, fetchDocuments_filters. reflexivity.
Qed.

Lemma updater_wf c f f' : wf f -> updater c f = Some f' -> wf f'.
Proof.
  intros W. destruct c as [p| | | | |page]; simpl.
  - intros E; inversion E. apply wf_updateFilters.
  - intros E; inversion E. wf_literal.
  - intros E; inversion E. apply wf_spread. constructor.
  - unfold nextPage. destruct (js_add _ _); [|discriminate].
    intros E; inversion E. apply wf_set, wf_spread. constructor.
  - unfold prevPage. destruct (js_sub _ _); [|discriminate].
    destruct (Math_max _ _); [|discriminate].
    intros E; inversion E. apply wf_set, wf_spread. constructor.
  - unfold goToPage. destruct (js_mul _ _); [|discriminate].
    intros E; inversion E. apply wf_set, wf_spread. constructor.
Qed.

(** A call that leaves the filters as they are issues no request, once the
    effect has run. *)
Lemma call_unchanged_suppressed c h :
  prevFiltersRef h = Some (JSON_stringify (filters h)) ->
  updater c (filters h) = Some (filters h) ->
  call c h = Some (h, []).
Proof.
  intros R U. rewrite call_updater, U, setFilters_same.
  rewrite (fetchDocuments_guard h R). reflexivity.
Qed.

(** Deduplication: the second of two consecutive calls of [updateFilters]
    with one payload issues no request. *)
Lemma duplicate_update_suppressed h p h1 r1 :
  wf (filters h) ->
  call (UpdateFilters p) h = Some (h1, r1) ->
  call (UpdateFilters p) h1 = Some (h1, []).
Proof.
  intros W C. apply call_unchanged_suppressed.
  - apply (call_remembers _ _ _ _ C).
  - destruct (call_filters (UpdateFilters p) h _ eq_refl)
      as (h' & r' & C' & F).
    rewrite C in C'. inversion C'; subst h' r'.
    simpl. rewrite F. rewrite updateFilters_idempotent by assumption.
    reflexivity.
Qed.

(** [refetch] copies the filters, so the guard suppresses its request as
    well: after any call, [refetch()] issues nothing and changes nothing. *)
Lemma refetch_suppressed c h h1 r1 :
  wf (filters h) ->
  call c h = Some (h1, r1) ->
  call Refetch h1 = Some (h1, []).
Proof.
  intros W C. apply call_unchanged_suppressed.
  - apply (call_remembers _ _ _ _ C).
  - simpl. unfold refetch. rewrite spread_copy; [reflexivity|].
    rewrite call_updater in C.
    destruct (updater c (filters h)) as [f|] eqn:U; [|discriminate].
    inversion C; subst. rewrite fetchDocuments_filters. simpl.
    apply (updater_wf c _ _ W U).
Qed.

(** C1, evaluated: after the mount, two calls of [updateFilters] with the
    payload [{search: "Apple"}] issue one list request between them, and the
    [refetch()] that follows issues none and leaves the remembered text as
    it was. *)
Theorem refetch_after_duplicate_updates :
  let p := [("search", JStr "Apple")] in
  let sent := [("skip", JNum 0); ("limit", JNum 20);
               ("search", JStr "Apple")] in
  exists h0 h2,
    mount [] = (h0, [[("skip", JNum 0); ("limit", JNum 20)]]) /\
    run [Invoke (UpdateFilters p); Invoke (UpdateFilters p)] h0
      = Some (h2, [sent]) /\
    run [Invoke Refetch] h2 = Some (h2, []) /\
    prevFiltersRef h2 = Some (JSON_stringify sent).
Proof.
  intros p sent. eexists _, _.
  split; [reflexivity|]. split; [vm_compute; reflexivity|].
  split; vm_compute; reflexivity.
Qed.

(** ** Settled requests *)

Lemma fetchDocuments_results h :
  documents (fst (fetchDocuments h)) = documents h /\
  total (fst (fetchDocuments h)) = total h.
Proof.
  unfold fetchDocuments.
  match goal with |- context [if ?b then _ else _] => destruct b end;
    split; reflexivity.
Qed.

Lemma step_results e h h1 r1 :
  is_fulfilment e = false ->
  step e h = Some (h1, r1) ->
  documents h1 = documents h /\ total h1 = total h.
Proof.
  destruct e as [c|[data|err]]; simpl; intros N E; try discriminate.
  - rewrite call_updater in E.
    destruct (updater c (filters h)) as [f|]; [|discriminate].
    inversion E; subst. apply (fetchDocuments_results (setFilters f h)).
  - inversion E; subst. split; reflexivity.
Qed.

Lemma run_results es : forall h h1 r1,
  forallb (fun e => negb (is_fulfilment e)) es = true ->
  run es h = Some (h1, r1) ->
  documents h1 = documents h /\ total h1 = total h.
Proof.
  induction es as [|e es IH]; simpl; intros h h1 r1 N E.
  - inversion E; subst. split; reflexivity.
  - apply andb_prop in N. destruct N as [Ne Nes].
    destruct (step e h) as [[h' r']|] eqn:S; [|discriminate].
    destruct (run es h') as [[h'' r'']|] eqn:R; [|discriminate].
    inversion E; subst.
    destruct (IH _ _ _ Nes R) as [D T].
    destruct (step_results e h h' r') as [D' T']; [|assumption|].
    + destruct (is_fulfilment e); [discriminate | reflexivity].
    + split; congruence.
Qed.

(** C4, as amended: for every pre-failure state, a failed fetch leaves
    [documents] and [total] as they were (the empty list and zero when no
    request has succeeded since the mount) and sets [error] to a truthy
    value: the detail of the server's error when that is truthy, whatever
    its type, and the fallback message otherwise.  [error] is a non-empty
    string whenever the detail is a string or is falsy (missing, null,
    false, 0 or empty). *)
Theorem failed_fetch_keeps_results h err :
  let h' := settle (Rejected err) h in
  documents h' = documents h /\
  total h' = total h /\
  JSON_ToBoolean (error h') = true /\
  (JSON_ToBoolean (err_detail err) = true -> error h' = err_detail err) /\
  (JSON_ToBoolean (err_detail err) = false ->
   error h' = JStr "Failed to fetch documents") /\
  (forall d, err_detail err = JStr d -> d <> "" -> error h' = JStr d) /\
  (is_string (err_detail err) = true \/
   JSON_ToBoolean (err_detail err) = false ->
   exists msg, error h' = JStr msg /\ msg <> "") /\
  (forall initialFilters es h0 r0,
      forallb (fun e => negb (is_fulfilment e)) es = true ->
      run es (fst (mount initialFilters)) = Some (h0, r0) ->
      documents (settle (Rejected err) h0) = [] /\
      total (settle (Rejected err) h0) = JNum 0).
Proof.
  intros h'. subst h'. simpl. unfold JSON_or.
  split; [reflexivity|]. split; [reflexivity|].
  split; [destruct (JSON_ToBoolean (err_detail err)) eqn:B;
          [exact B | reflexivity]|].
  split; [intros ->; reflexivity|].
  split; [intros ->; reflexivity|].
  split; [|split].
  - intros d -> N. simpl.
    destruct (String.eqb_spec d ""); [contradiction | reflexivity].
  - intros [X|X].
    + destruct (err_detail err) as [v|items|props]; try discriminate X.
      destruct v as [| |b|n|d]; try discriminate X. simpl.
      destruct (String.eqb_spec d "") as [->|N]; simpl.
      * exists "Failed to fetch documents". split; [reflexivity|discriminate].
      * exists d. split; [reflexivity | assumption].
    + rewrite X. exists "Failed to fetch documents".
      split; [reflexivity|discriminate].
  - intros initialFilters es h0 r0 N R.
    destruct (run_results es _ _ _ N R) as [D T].
    simpl in D, T. split; assumption.
Qed.

Lemma failed_fetch_keeps_results_witness :
  let h := on_fulfilled {| items := [[("id", JNum 7)]];
                           data_total := JNum 45 |} (fst (mount [])) in
  let err := ErrorResponse
               (JObject [("detail", JPrimitive (JStr "Invalid date"))]) in
  documents (settle (Rejected err) h) = [[("id", JNum 7)]] /\
  total (settle (Rejected err) h) = JNum 45 /\
  error (settle (Rejected err) h) = JStr "Invalid date".
Proof.
  intros h err.
  destruct (failed_fetch_keeps_results h err) as (D & T & _ & _ & _ & E & _).
  split; [exact D|]. split; [exact T|].
  apply (E "Invalid date"); [reflexivity | discriminate].
Defined.

(** C4, as stated, fails: the detail of a validation error is a list of
    objects, which is truthy, so that [error] holds that list and not a
    string. *)
Lemma failed_fetch_stores_any_detail :
  let detail := JArray [JObject [("msg", JPrimitive (JStr "field required"))]] in
  let err := ErrorResponse (JObject [("detail", detail)]) in
  let h := settle (Rejected err) (fst (mount [])) in
  error h = detail /\ is_string (error h) = false /\
  forall msg, error h <> JStr msg.
Proof.
  intros detail err h. split; [reflexivity|]. split; [reflexivity|].
  intros msg. discriminate.
Qed.

Lemma step_error_null e h h1 r1 :
  is_rejection e = false ->
  error h = JNull ->
  step e h = Some (h1, r1) ->
  error h1 = JNull.
Proof.
  destruct e as [c|[data|err]]; simpl; intros N Z E; try discriminate.
  - rewrite call_updater in E.
    destruct (updater c (filters h)) as [f|]; [|discriminate].
    inversion E; subst. unfold fetchDocuments.
    match goal with |- context [if ?b then _ else _] => destruct b end;
      simpl; [assumption | reflexivity].
  - inversion E; subst. assumption.
Qed.

Lemma run_error_null es : forall h h1 r1,
  forallb (fun e => negb (is_rejection e)) es = true ->
  error h = JNull ->
  run es h = Some (h1, r1) ->
  error h1 = JNull.
Proof.
  induction es as [|e es IH]; simpl; intros h h1 r1 N Z E.
  - inversion E; subst. assumption.
  - apply andb_prop in N. destruct N as [Ne Nes].
    destruct (step e h) as [[h' r']|] eqn:S; [|discriminate].
    destruct (run es h') as [[h'' r'']|] eqn:R; [|discriminate].
    inversion E; subst.
    eapply IH; [exact Nes | | exact R].
    apply (step_error_null e h h' r'); try assumption.
    destruct (is_rejection e); [discriminate | reflexivity].
Qed.

(** The effect on filters whose text is not the remembered one: the request
    is issued with the filters, [loading] is set and [error] cleared. *)
Lemma fetchDocuments_issues h :
  prevFiltersRef h <> Some (JSON_stringify (filters h)) ->
  fetchDocuments h =
  ({| documents := documents h;
      total := total h;
      loading := true;
      error := JNull;
      filters := filters h;
      prevFiltersRef := Some (JSON_stringify (filters h)) |},
   Some (filters h)).
Proof.
  intros N. unfold fetchDocuments.
  destruct (prevFiltersRef h) as [prev|]; [|reflexivity].
  destruct (String.eqb_spec prev (JSON_stringify (filters h))) as [->|_];
    [contradiction N; reflexivity | reflexivity].
Qed.

(** C5, as amended: on every successful fetch, [documents] becomes the
    items of the response and [total] its total, whatever was held before,
    and the success path leaves [error] as it finds it.  A fetch that
    issues its request (the filters are not the remembered ones) clears
    [error] when it starts, so that [error] is null after the success
    unless a failure is reported between the start and the success. *)
Theorem successful_fetch_replaces h data :
  documents (settle (Fulfilled data) h) = items data /\
  total (settle (Fulfilled data) h) = data_total data /\
  error (settle (Fulfilled data) h) = error h /\
  (prevFiltersRef h <> Some (JSON_stringify (filters h)) ->
   exists h1,
     fetchDocuments h = (h1, Some (filters h)) /\
     error h1 = JNull /\
     documents (settle (Fulfilled data) h1) = items data /\
     total (settle (Fulfilled data) h1) = data_total data /\
     error (settle (Fulfilled data) h1) = JNull /\
     (forall es h2 r,
         forallb (fun e => negb (is_rejection e)) es = true ->
         run es h1 = Some (h2, r) ->
         documents (settle (Fulfilled data) h2) = items data /\
         total (settle (Fulfilled data) h2) = data_total data /\
         error (settle (Fulfilled data) h2) = JNull)).
Proof.
  split; [reflexivity|]. split; [reflexivity|]. split; [reflexivity|].
  intros N. eexists. split; [apply (fetchDocuments_issues h N)|].
  split; [reflexivity|]. split; [reflexivity|]. split; [reflexivity|].
  split; [reflexivity|].
  intros es h2 r Nr R. split; [reflexivity|]. split; [reflexivity|]. simpl.
  eapply run_error_null; [exact Nr | | exact R]. reflexivity.
Qed.

Lemma successful_fetch_replaces_witness :
  let h := setFilters [("skip", JNum 0); ("limit", JNum 20);
                       ("search", JStr "Apple")]
             (on_rejected NoResponse
                (on_fulfilled {| items := [[("id", JNum 7)]];
                                 data_total := JNum 1 |}
                              (fst (mount [])))) in
  let data := {| items := [[("id", JNum 8)]; [("id", JNum 9)]];
                 data_total := JNum 2 |} in
  error h = JStr "Failed to fetch documents" /\
  documents h = [[("id", JNum 7)]] /\
  exists h1,
    fetchDocuments h = (h1, Some (filters h)) /\
    documents (settle (Fulfilled data) h1)
      = [[("id", JNum 8)]; [("id", JNum 9)]] /\
    total (settle (Fulfilled data) h1) = JNum 2 /\
    error (settle (Fulfilled data) h1) = JNull.
Proof.
  intros h data. split; [reflexivity|]. split; [reflexivity|].
  destruct (successful_fetch_replaces h data) as (_ & _ & _ & K).
  destruct K as (h1 & F & _ & D & T & Z & _).
  - vm_compute. discriminate.
  - exists h1. repeat split; assumption.
Defined.

(** C5, as stated, fails: the hook does not tell the requests in flight
    apart (the stale-response race), so that the failure of a later
    request, reported before an earlier one succeeds, leaves its message
    next to the results of the earlier one: [error] is not null after that
    successful fetch. *)
Lemma rejection_reported_before_success :
  exists h r,
    run [Invoke (UpdateFilters [("search", JStr "A")]);
         Invoke (UpdateFilters [("search", JStr "Ap")]);
         Settle (Rejected NoResponse);
         Settle (Fulfilled {| items := [[("id", JNum 1)]];
                              data_total := JNum 1 |})]
        (fst (mount [])) = Some (h, r) /\
    documents h = [[("id", JNum 1)]] /\
    error h = JStr "Failed to fetch documents" /\
    error h <> JNull /\
    List.length r = 2%nat.
Proof.
  eexists _, _. split; [vm_compute; reflexivity|].
  repeat split. discriminate.
Qed.

End FetchProtocol.

(* ================================================================== *)
(** * The AI search panel *)

Section SearchPanelFacts.

Import SearchPanel.

Implicit Types (s : string) (c : ascii).

Lemma trimStart_split s :
  exists a, s = a ++ trimStart s /\ blank a = true.
Proof.
  induction s as [|c s (a & E & B)]; simpl.
  - exists "". split; reflexivity.
  - destruct (is_white_space c) eqn:W.
    + exists (String c a). simpl. rewrite <- E, W, B. split; reflexivity.
    + exists "". split; reflexivity.
Qed.

Lemma trimStart_first s c :
  first_char (trimStart s) = Some c -> is_white_space c = false.
Proof.
  induction s as [|c0 s IH]; simpl; [discriminate|].
  destruct (is_white_space c0) eqn:W; [exact IH|].
  simpl. intros E; inversion E; subst; assumption.
Qed.

Lemma trimEnd_split s :
  exists b, s = trimEnd s ++ b /\ blank b = true.
Proof.
  induction s as [|c s (b & E & B)]; simpl.
  - exists "". split; reflexivity.
  - destruct (trimEnd s) as [|c' t] eqn:T.
    + simpl in E. subst b. destruct (is_white_space c) eqn:W.
      * exists (String c s). simpl. rewrite W, B. split; reflexivity.
      * exists s. split; [reflexivity | assumption].
    + exists b. split; [|assumption]. simpl. rewrite E at 1. reflexivity.
Qed.

Lemma trimEnd_last s c :
  last_char (trimEnd s) = Some c -> is_white_space c = false.
Proof.
  induction s as [|c0 s IH]; simpl; [discriminate|].
  destruct (trimEnd s) as [|c' t] eqn:T.
  - destruct (is_white_space c0) eqn:W; simpl; [discriminate|].
    intros E; inversion E; subst; assumption.
  - exact IH.
Qed.

Lemma trimEnd_first s c :
  first_char (trimEnd s) = Some c -> first_char s = Some c.
Proof.
  destruct s as [|c0 s]; simpl; [discriminate|].
  destruct (trimEnd s); [destruct (is_white_space c0)|];
    simpl; intros E; try discriminate; exact E.
Qed.

Lemma trimEnd_blank s : trimEnd s = "" <-> blank s = true.
Proof.
  induction s as [|c s IH]; simpl; [tauto|].
  destruct (trimEnd s) as [|c' t].
  - destruct (is_white_space c); simpl.
    + tauto.
    + split; discriminate.
  - split; [discriminate|]. intros B. apply andb_prop in B.
    destruct B as [_ B]. apply IH in B. discriminate.
Qed.

Lemma trimStart_blank s : blank (trimStart s) = blank s.
Proof.
  induction s as [|c s IH]; simpl; [reflexivity|].
  destruct (is_white_space c) eqn:W; simpl; [exact IH|].
  rewrite W. reflexivity.
Qed.

Lemma trim_blank s : trim s = "" <-> blank s = true.
Proof. unfold trim. rewrite trimEnd_blank, trimStart_blank. tauto. Qed.

(** [trim] removes white space at both ends and nothing else. *)
Lemma trim_spec s :
  trimmed (trim s) /\
  exists a b, s = a ++ trim s ++ b /\ blank a = true /\ blank b = true.
Proof.
  unfold trim. split; [split|].
  - intros c F. apply trimEnd_first in F. apply (trimStart_first s c F).
  - apply trimEnd_last.
  - destruct (trimStart_split s) as (a & Ea & Ba).
    destruct (trimEnd_split (trimStart s)) as (b & Eb & Bb).
    exists a, b. rewrite <- Eb. tauto.
Qed.

(** C10: submitting an empty or whitespace-only query posts no search
    request, sets the error to 'Please enter a search query' and leaves the
    displayed result as it was; every other query is posted trimmed of its
    surrounding white space, with each empty optional filter sent as null
    and each non-empty one as typed. *)
Theorem handleSearch_guards_blank_query p :
  (blank (query p) = true ->
   snd (handleSearch p) = None /\
   SearchPanel.error (fst (handleSearch p))
     = JStr "Please enter a search query" /\
   result (fst (handleSearch p)) = result p /\
   SearchPanel.loading (fst (handleSearch p)) = SearchPanel.loading p) /\
  (blank (query p) = false ->
   exists body q,
     snd (handleSearch p) = Some body /\
     get body "query" = Some (JStr q) /\
     q <> "" /\ trimmed q /\
     (exists a b, query p = a ++ q ++ b /\
                  blank a = true /\ blank b = true) /\
     get body "company_filter" =
       Some (if String.eqb (companyFilter p) "" then JNull
             else JStr (companyFilter p)) /\
     get body "filing_type_filter" =
       Some (if String.eqb (filingTypeFilter p) "" then JNull
             else JStr (filingTypeFilter p)) /\
     get body "limit" = Some (SearchPanel.limit p)).
Proof.
  unfold handleSearch. simpl. split; intros B.
  - apply trim_blank in B. rewrite B. simpl. repeat split.
  - destruct (trim (query p)) as [|c t] eqn:T.
    + apply trim_blank in T. congruence.
    + simpl. exists (search_body p), (trim (query p)).
      split; [reflexivity|]. unfold search_body. simpl.
      split; [reflexivity|]. split; [rewrite T; discriminate|].
      destruct (trim_spec (query p)) as [Tr Sp].
      split; [assumption|]. split; [assumption|].
      unfold js_or. simpl.
      destruct (String.eqb (companyFilter p) "");
        destruct (String.eqb (filingTypeFilter p) ""); simpl;
        repeat split.
Qed.

Lemma handleSearch_guards_blank_query_witness :
  let shown := Some [("answer", JStr "42")] in
  let p1 := {| query := "   "; companyFilter := ""; filingTypeFilter := "";
               SearchPanel.limit := JNum 5; SearchPanel.loading := false;
               result := shown; SearchPanel.error := JNull |} in
  let p2 := {| query := "  Apple revenue "; companyFilter := "";
               filingTypeFilter := "10-K";
               SearchPanel.limit := JNum 5; SearchPanel.loading := false;
               result := shown; SearchPanel.error := JNull |} in
  (snd (handleSearch p1) = None /\ result (fst (handleSearch p1)) = shown) /\
  snd (handleSearch p2)
    = Some [("query", JStr "Apple revenue"); ("company_filter", JNull);
            ("filing_type_filter", JStr "10-K"); ("limit", JNum 5)].
Proof.
  intros shown p1 p2. split.
  - destruct (handleSearch_guards_blank_query p1) as [K _].
    destruct K as (N & _ & R & _); [reflexivity|]. split; assumption.
  - destruct (handleSearch_guards_blank_query p2) as [_ K].
    destruct K as (body & q & S & _); [reflexivity|]. reflexivity.
Defined.

End SearchPanelFacts.

(* ================================================================== *)
(** * The debounced search bar *)

Section SearchBarFacts.

Import SearchBar.

Implicit Types (b : Bar) (ks : list (Z * ascii)).

Lemma append_assoc (s1 s2 s3 : string) : (s1 ++ s2) ++ s3 = s1 ++ s2 ++ s3.
Proof. induction s1 as [|c s1 IH]; simpl; [|rewrite IH]; reflexivity. Qed.

Lemma append_empty (s : string) : s ++ "" = s.
Proof. induction s as [|c s IH]; simpl; [|rewrite IH]; reflexivity. Qed.

Lemma typing_burst ks : forall b,
  burst ks -> not_due ks b ->
  snd (typing ks b) = [] /\
  text (fst (typing ks b)) = text b ++ typed ks /\
  (ks <> [] ->
   exists due, pending (fst (typing ks b)) = Some (due, text b ++ typed ks)).
Proof.
  induction ks as [|[now c] ks IH]; intros b B D.
  - simpl. rewrite append_empty. repeat split. intros N; contradiction.
  - assert (E : elapse now b = (b, [])).
    { unfold elapse. unfold not_due in D.
      destruct (pending b) as [[due q]|]; [|reflexivity].
      destruct (Z.leb due now) eqn:L; [|reflexivity].
      apply Z.leb_le in L. lia. }
    simpl. unfold keystroke. rewrite E.
    set (b1 := {| text := text b ++ String c "";
                  pending := Some (now + delay, text b ++ String c "") |}).
    assert (B' : burst ks /\ not_due ks b1).
    { simpl in B. destruct ks as [|[t2 c2] ks']; [split; exact I|].
      destruct B as [G B]. split; [exact B|]. simpl. lia. }
    destruct B' as [B' D'].
    destruct (IH b1 B' D') as (R & T & P).
    destruct (typing ks b1) as [b2 r2] eqn:Ty. simpl in *.
    subst r2. split; [reflexivity|].
    assert (X : text b1 ++ typed ks = text b ++ typed ((now, c) :: ks)).
    { unfold b1, typed. simpl. rewrite append_assoc. reflexivity. }
    rewrite <- X. split; [assumption|]. intros _.
    destruct ks as [|k ks'].
    + simpl in Ty. inversion Ty; subst b2. exists (now + delay).
      unfold typed. simpl. rewrite append_empty. reflexivity.
    + apply P. discriminate.
Qed.

(** C9: each keystroke cancels the pending 300ms task and schedules a new
    one, so a burst of keystrokes less than 300ms apart issues exactly one
    search request, carrying the final text; the five keystrokes of
    "Apple", typed within 300ms, issue the single request "Apple". *)
Theorem debounced_search_issues_one_request :
  (forall ks initialValue,
      ks <> [] -> burst ks ->
      session ks (SearchBar initialValue) = [initialValue ++ typed ks]) /\
  (forall t0 t1 t2 t3 t4,
      t0 <= t1 -> t1 <= t2 -> t2 <= t3 -> t3 <= t4 -> t4 < t0 + 300 ->
      session [(t0, "A"); (t1, "p"); (t2, "p"); (t3, "l"); (t4, "e")]%char
              (SearchBar "") = ["Apple"]).
Proof.
  assert (G : forall ks initialValue,
             ks <> [] -> burst ks ->
             session ks (SearchBar initialValue) = [initialValue ++ typed ks]).
  { intros ks initialValue N B. unfold session.
    destruct (typing_burst ks (SearchBar initialValue) B) as (R & T & P).
    - unfold not_due. destruct ks as [|[now c] ks']; exact I.
    - destruct (P N) as (due & Pd).
      destruct (typing ks (SearchBar initialValue)) as [b1 r1].
      simpl in *. subst r1. unfold inactivity. rewrite Pd. reflexivity. }
  split; [exact G|].
  intros t0 t1 t2 t3 t4 H0 H1 H2 H3 H4.
  rewrite G; [reflexivity | discriminate |].
  simpl. unfold delay. lia.
Qed.

Lemma debounced_search_issues_one_request_witness :
  session [(0, "A"); (60, "p"); (120, "p"); (180, "l"); (240, "e")]%char
          (SearchBar "") = ["Apple"] /\
  session [(0, "S"); (299, "E"); (598, "C")]%char (SearchBar "") = ["SEC"].
Proof.
  destruct debounced_search_issues_one_request as [G A]. split.
  - apply A; lia.
  - apply (G [(0, "S"); (299, "E"); (598, "C")]%char "").
    + discriminate.
    + simpl. unfold delay. lia.
Defined.

(** Keystrokes 300ms apart or more are not coalesced. *)
Example slow_typing_issues_each_text :
  session [(0, "S"); (300, "E"); (700, "C")]%char (SearchBar "")
  = ["S"; "SE"; "SEC"].
Proof. reflexivity. Qed.

End SearchBarFacts.

(* ================================================================== *)
(** * The JSON text determines the defined properties *)

Section JSONFacts.

Import JSONText.

Implicit Types (s r : string) (c : ascii) (o : Obj).
























End JSONFacts.

(* ================================================================== *)
(** * The request log of the hook *)

Section RequestLog.

Import JSONText Observations.

Implicit Types (h : Hook) (f q : Obj) (es : list Event).

Lemma in_defined o k v :
  In (k, v) (defined o) <-> In (k, v) o /\ v <> JUndefined.
Proof.
  unfold defined. rewrite filter_In. simpl.
  destruct v; intuition congruence.
Qed.


Lemma settled_mount initialFilters : settled (fst (mount initialFilters)).
Proof.
  unfold settled, mount.
  pose proof (fetchDocuments_remembers (useDocuments initialFilters)) as R.
  pose proof (fetchDocuments_filters (useDocuments initialFilters)) as F.
  destruct (fetchDocuments (useDocuments initialFilters)) as [h r].
  simpl in *. rewrite R, F. reflexivity.
Qed.

Lemma wf_mount initialFilters : wf (filters (fst (mount initialFilters))).
Proof.
  unfold mount.
  pose proof (fetchDocuments_filters (useDocuments initialFilters)) as F.
  destruct (fetchDocuments (useDocuments initialFilters)) as [h r].
  simpl in *. rewrite F. simpl. apply wf_spread. wf_literal.
Qed.








Lemma step_last_data e h h1 r1 :
  step e h = Some (h1, r1) ->
  {| items := documents h1; data_total := total h1 |} =
  match e with
  | Settle (Fulfilled d) => d
  | _ => {| items := documents h; data_total := total h |}
  end.
Proof.
  destruct e as [c|[[i t]|err]]; intros S.
  - destruct (step_results (Invoke c) h h1 r1 eq_refl S) as [-> ->].
    reflexivity.
  - simpl in S. inversion S; subst. reflexivity.
  - destruct (step_results (Settle (Rejected err)) h h1 r1 eq_refl S)
      as [-> ->].
    reflexivity.
Qed.

(** X3: after any run of events, [documents] and [total] are those of the
    response fulfilled last, whichever request it answers and whatever the
    filters have become since; without any, they are as before the run. *)
Theorem results_of_last_response es : forall h h' rs,
  run es h = Some (h', rs) ->
  {| items := documents h'; data_total := total h' |} =
  last_data es {| items := documents h; data_total := total h |}.
Proof.
  induction es as [|e es IH]; simpl; intros h h' rs E.
  - inversion E; subst. reflexivity.
  - destruct (step e h) as [[h1 r1]|] eqn:S; [|discriminate].
    destruct (run es h1) as [[h2 r2]|] eqn:R2; [|discriminate].
    inversion E; subst. rewrite (IH _ _ _ R2).
    unfold last_data. simpl. f_equal.
    rewrite (step_last_data _ _ _ _ S).
    destruct e as [c|[d|err]]; reflexivity.
Qed.

Lemma results_of_last_response_witness :
  let es := [Invoke (UpdateFilters [("search", JStr "A")]);
             Invoke (UpdateFilters [("search", JStr "Ap")]);
             Settle (Fulfilled {| items := [[("id", JNum 2)]];
                                  data_total := JNum 1 |});
             Settle (Fulfilled {| items := [[("id", JNum 1)];
                                            [("id", JNum 3)]];
                                  data_total := JNum 2 |})] in
  exists h rs,
    run es (fst (mount [])) = Some (h, rs) /\
    documents h = [[("id", JNum 1)]; [("id", JNum 3)]] /\
    total h = JNum 2.
Proof.
  intros es.
  destruct (run es (fst (mount []))) as [[h rs]|] eqn:R.
  - exists h, rs. split; [reflexivity|].
    pose proof (results_of_last_response es _ h rs R) as E.
    injection E as D T. split; assumption.
  - vm_compute in R. discriminate R.
Defined.

End RequestLog.

(* ================================================================== *)
(** * Paging through the hook *)

Section PagingMore.

Import JSONText Observations.

Implicit Types (h : Hook) (f : Obj).




(** Beyond the safe integers [nextPage] stalls: from
    [skip = 9007199254740991] with [limit = 1] the first call reaches
    [2^53], and the second leaves [skip] there and issues no request. *)
Example nextPage_stalls_beyond_safe :
  let h := fst (mount [("skip", JNum 9007199254740991); ("limit", JNum 1)]) in
  exists h' rs,
    run [Invoke NextPage; Invoke NextPage] h = Some (h', rs) /\
    get (filters h') "skip" = Some (JNum 9007199254740992) /\
    List.length rs = 1%nat.
Proof.
  intros h. eexists _, _. split; [vm_compute; reflexivity|].
  split; reflexivity.
Qed.


(** X5: on the first page [prevPage] is idle: with [skip = 0] and a page
    size that is not negative it leaves the hook as it is and issues no
    request. *)
Theorem prevPage_idle_on_first_page h l :
  settled h -> paging (filters h) 0 l -> 0 <= l ->
  call PrevPage h = Some (h, []).
Proof.
  intros S (W & Gs & Gl) P. apply call_unchanged_suppressed; [exact S|].
  simpl. rewrite (prevPage_value _ 0 l) by assumption.
  destruct (to_double_sign (0 - l)) as [Neg _].
  replace (Z.max 0 (to_double (0 - l))) with 0 by lia.
  rewrite set_same_value by assumption. reflexivity.
Qed.

Lemma prevPage_idle_on_first_page_witness :
  call PrevPage (fst (mount [])) = Some (fst (mount []), []).
Proof.
  apply (prevPage_idle_on_first_page (fst (mount [])) 20).
  - reflexivity.
  - split; [wf_literal|]. split; reflexivity.
  - lia.
Defined.



(** Beyond the safe integers [goToPage(n)] may miss page [n]: with
    [limit = 3], [goToPage(3002399751580331)] stores [2^53] and the current
    page is [3002399751580330]. *)
Example goToPage_misses_page_beyond_safe :
  let h := fst (mount [("limit", JNum 3)]) in
  exists h' r,
    call (GoToPage (JNum 3002399751580331)) h = Some (h', r) /\
    get (filters h') "skip" = Some (JNum 9007199254740992) /\
    currentPage h' = Some (JNum 3002399751580330).
Proof.
  intros h. eexists _, _. split; [vm_compute; reflexivity|].
  split; [reflexivity | vm_compute; reflexivity].
Qed.


(** X7: the search box of the document list: a non-empty term becomes the
    [search] filter; an empty term leaves [search] undefined, so that the
    text of the request has no search; both reset [skip] to 0 and keep
    every other filter. *)
Theorem handleSearch_sets_or_clears h term :
  wf (filters h) ->
  exists h' r,
    call (DocumentList.handleSearch (JStr term)) h = Some (h', r) /\
    get (filters h') "skip" = Some (JNum 0) /\
    (term <> "" -> get (filters h') "search" = Some (JStr term)) /\
    (term = "" ->
     get (filters h') "search" = Some JUndefined /\
     ~ In "search" (keys (defined (filters h')))) /\
    (forall k, k <> "skip" -> k <> "search" ->
       get (filters h') k = get (filters h) k).
Proof.
  intros W.
  destruct (call_filters (DocumentList.handleSearch (JStr term)) h _ eq_refl)
    as (h' & r & C & F).
  exists h', r. split; [assumption|]. rewrite F.
  assert (S : get (updateFilters
                     (set "search" (js_or (JStr term) JUndefined) [])
                     (filters h)) "search"
              = Some (js_or (JStr term) JUndefined)).
  { rewrite get_updateFilters by assumption. reflexivity. }
  split; [rewrite get_updateFilters by assumption; reflexivity|].
  split; [|split].
  - intros N. rewrite S. unfold js_or. simpl.
    apply String.eqb_neq in N. rewrite N. reflexivity.
  - intros ->. split; [exact S|].
    intros I. apply in_map_iff in I. destruct I as ([k v] & E & I).
    simpl in E. subst k. apply in_defined in I. destruct I as [I U].
    apply (get_in _ _ _ (wf_updateFilters _ _)) in I.
    rewrite S in I. injection I as I. apply U. rewrite <- I. reflexivity.
  - intros k Ns Nq. rewrite get_updateFilters by assumption.
    apply String.eqb_neq in Ns. rewrite Ns. simpl.
    apply String.eqb_neq in Nq. rewrite Nq. reflexivity.
Qed.

Lemma handleSearch_sets_or_clears_witness :
  exists h1 h2,
    call (DocumentList.handleSearch (JStr "Apple")) (fst (mount []))
      = Some (h1, [[("skip", JNum 0); ("limit", JNum 20);
                    ("search", JStr "Apple")]]) /\
    call (DocumentList.handleSearch (JStr "")) h1
      = Some (h2, [[("skip", JNum 0); ("limit", JNum 20);
                    ("search", JUndefined)]]) /\
    JSON_stringify (filters h2) = JSON_stringify default_filters.
Proof.
  destruct (handleSearch_sets_or_clears (fst (mount [])) "Apple")
    as (h1 & r1 & C1 & _); [wf_literal|].
  pose proof C1 as E1. vm_compute in E1. injection E1 as Eh1 Er1.
  destruct (handleSearch_sets_or_clears h1 "")
    as (h2 & r2 & C2 & _); [rewrite <- Eh1; wf_literal|].
  pose proof C2 as E2. rewrite <- Eh1 in E2. vm_compute in E2.
  injection E2 as Eh2 Er2.
  exists h1, h2. rewrite C1, C2, <- Er1, <- Er2, <- Eh2.
  repeat split.
Defined.

(** X8: the banner of the sync button is shown after either outcome, and
    it is styled as an error exactly when the sync failed: the message of
    a success never starts with 'Error', that of a failure always does. *)
Theorem sync_banner_matches_outcome data err :
  DocumentList.banner_shown (DocumentList.sync_success_message data) = true /\
  DocumentList.shown_as_error (DocumentList.sync_success_message data)
    = false /\
  DocumentList.banner_shown (DocumentList.sync_error_message err) = true /\
  DocumentList.shown_as_error (DocumentList.sync_error_message err) = true.
Proof. repeat split. Qed.

End PagingMore.

(* ================================================================== *)
(** * The filter bar *)

Section FilterBarFacts.

Import Observations.

Implicit Types (h : Hook) (o acc localFilters : Obj) (k key : string).

Lemma cleanFilters_fold o : forall acc,
  NoDup (keys acc ++ keys o) ->
  fold_left
    (fun acc kv => if ToBoolean (snd kv) then set (fst kv) (snd kv) acc
                   else acc) o acc
  = (acc ++ filter truthy o)%list.
Proof.
  induction o as [|[k v] o IH]; simpl; intros acc N.
  - rewrite app_nil_r. reflexivity.
  - unfold truthy at 1. simpl. destruct (ToBoolean v).
    + assert (F : ~ In k (keys acc)).
      { intros I. apply NoDup_remove_2 in N. apply N, in_or_app; tauto. }
      rewrite set_fresh by assumption. rewrite IH.
      * rewrite <- app_assoc. reflexivity.
      * unfold keys in *. rewrite map_app. simpl. rewrite <- app_assoc.
        exact N.
    + apply IH. apply NoDup_remove_1 in N. exact N.
Qed.

(** The reduce of [handleFilterChange] keeps the truthy entries. *)
Lemma cleanFilters_filter o :
  wf o -> FilterBar.cleanFilters o = filter truthy o.
Proof.
  intros W. unfold FilterBar.cleanFilters.
  rewrite cleanFilters_fold; [reflexivity | exact W].
Qed.

Lemma wf_filter o (p : string * JSVal -> bool) : wf o -> wf (filter p o).
Proof.
  unfold wf. induction o as [|[k v] o IH]; simpl; intros W; [constructor|].
  inversion W as [|? ? N W']; subst.
  destruct (p (k, v)); simpl; [|apply IH; assumption].
  constructor; [|apply IH; assumption].
  intros I. apply N. unfold keys in *. apply in_map_iff in I.
  destruct I as (kv & E & I). apply filter_In in I.
  apply in_map_iff. exists kv. tauto.
Qed.

(** X9: [handleFilterChange(key, value)] stores the value in the bar and
    hands to [onFilterChange] exactly the fields of the bar that are not
    empty, in their order and with their values: never an empty value, and
    never the field that was just emptied. *)
Theorem handleFilterChange_payload key value localFilters :
  wf localFilters ->
  let newFilters := fst (FilterBar.handleFilterChange key value localFilters) in
  let payload := snd (FilterBar.handleFilterChange key value localFilters) in
  newFilters = set key value localFilters /\
  get newFilters key = Some value /\
  payload = filter truthy newFilters /\
  wf payload /\
  (forall k v, In (k, v) payload <->
               get newFilters k = Some v /\ ToBoolean v = true) /\
  (ToBoolean value = false -> ~ In key (keys payload)).
Proof.
  intros W newFilters payload.
  assert (E : newFilters = set key value localFilters).
  { unfold newFilters. simpl. rewrite spread_copy by assumption.
    reflexivity. }
  assert (Wn : wf newFilters) by (rewrite E; apply wf_set, W).
  assert (P : payload = filter truthy newFilters).
  { unfold payload. simpl. apply cleanFilters_filter. exact Wn. }
  assert (K : forall k v, In (k, v) payload <->
                          get newFilters k = Some v /\ ToBoolean v = true).
  { intros k v. rewrite P, filter_In. unfold truthy. simpl. split.
    - intros [I T]. split; [apply get_in; assumption | assumption].
    - intros [G T]. split; [apply get_in_pair, G | assumption]. }
  split; [exact E|]. split; [rewrite E; apply get_set_same|].
  split; [exact P|]. split; [rewrite P; apply wf_filter, Wn|].
  split; [exact K|].
  intros F I. apply in_map_iff in I. destruct I as ([k v] & Ek & I).
  simpl in Ek. subst k. apply K in I. destruct I as [G T].
  rewrite E, get_set_same in G. injection G as G. congruence.
Qed.

Lemma handleFilterChange_payload_witness :
  let localFilters := [("filing_type", JStr "10-K"); ("company_name", JStr "");
                       ("start_date", JStr "2024-01-01");
                       ("end_date", JStr "")] in
  snd (FilterBar.handleFilterChange "filing_type" (JStr "") localFilters)
    = [("start_date", JStr "2024-01-01")] /\
  snd (FilterBar.handleFilterChange "company_name" (JStr "Apple") localFilters)
    = [("filing_type", JStr "10-K"); ("company_name", JStr "Apple");
       ("start_date", JStr "2024-01-01")].
Proof.
  intros localFilters.
  destruct (handleFilterChange_payload "filing_type" (JStr "") localFilters)
    as (_ & _ & P1 & _); [wf_literal|].
  destruct (handleFilterChange_payload "company_name" (JStr "Apple")
              localFilters) as (_ & _ & P2 & _); [wf_literal|].
  rewrite P1, P2. split; reflexivity.
Defined.

Lemma call_updateFilters_get p h k :
  wf (filters h) ->
  exists h' r,
    call (UpdateFilters p) h = Some (h', r) /\
    filters h' = updateFilters p (filters h).
Proof.
  intros W. apply (call_filters (UpdateFilters p) h _ eq_refl).
Qed.

(** X10: through [updateFilters] the bar can set a filter and cannot take
    one away.  A field given a non-empty value reaches the filters of the
    hook; a field emptied in the bar keeps, in the hook, the value it had;
    and 'Clear All Filters' empties the bar and leaves the filters of the
    hook as they were but for [skip], which becomes 0. *)
Theorem filter_bar_cannot_remove h localFilters key value :
  wf (filters h) -> wf localFilters -> key <> "skip" ->
  (ToBoolean value = true ->
   exists h' r,
     call (DocumentList.handleFilterChange
             (snd (FilterBar.handleFilterChange key value localFilters))) h
       = Some (h', r) /\
     get (filters h') key = Some value /\
     get (filters h') "skip" = Some (JNum 0)) /\
  (ToBoolean value = false ->
   exists h' r,
     call (DocumentList.handleFilterChange
             (snd (FilterBar.handleFilterChange key value localFilters))) h
       = Some (h', r) /\
     get (filters h') key = get (filters h) key) /\
  (exists h' r,
     call (DocumentList.handleFilterChange
             (snd (FilterBar.handleClearFilters localFilters))) h
       = Some (h', r) /\
     FilterBar.hasActiveFilters
       (fst (FilterBar.handleClearFilters localFilters)) = false /\
     filters h' = set "skip" (JNum 0) (filters h) /\
     forall k, k <> "skip" -> get (filters h') k = get (filters h) k).
Proof.
  intros W Wl Nk.
  set (payload := snd (FilterBar.handleFilterChange key value localFilters)).
  assert (P : payload
              = filter truthy (set key value localFilters)).
  { unfold payload. simpl. rewrite spread_copy by assumption.
    apply cleanFilters_filter, wf_set, Wl. }
  assert (Wp : wf payload) by (rewrite P; apply wf_filter, wf_set, Wl).
  apply String.eqb_neq in Nk.
  split; [|split].
  - intros T.
    destruct (call_updateFilters_get payload h key W) as (h' & r & C & F).
    exists h', r. split; [exact C|]. rewrite F.
    rewrite !get_updateFilters by assumption. rewrite Nk. simpl.
    split; [|reflexivity].
    rewrite get_rev by assumption.
    rewrite (get_in payload key value Wp); [reflexivity|].
    rewrite P. apply filter_In. split; [|exact T].
    apply get_in_pair, get_set_same.
  - intros T.
    destruct (call_updateFilters_get payload h key W) as (h' & r & C & F).
    exists h', r. split; [exact C|]. rewrite F.
    rewrite get_updateFilters by assumption. rewrite Nk.
    rewrite get_rev by assumption.
    rewrite (get_notin payload key); [reflexivity|].
    intros I. apply in_map_iff in I. destruct I as ([k v] & Ek & I).
    simpl in Ek. subst k. rewrite P in I. apply filter_In in I.
    destruct I as [I Tv]. unfold truthy in Tv. simpl in Tv.
    apply (get_in _ _ _ (wf_set key value _ Wl)) in I.
    rewrite get_set_same in I. injection I as I. congruence.
  - destruct (call_updateFilters_get [] h key W) as (h' & r & C & F).
    exists h', r. split; [exact C|]. split; [reflexivity|].
    assert (E : filters h' = set "skip" (JNum 0) (filters h)).
    { rewrite F. unfold updateFilters. simpl.
      rewrite spread_copy by assumption. reflexivity. }
    split; [exact E|]. intros k N. rewrite E.
    apply get_set_other, N.
Qed.

Lemma filter_bar_cannot_remove_witness :
  let localFilters := [("filing_type", JStr "10-K"); ("company_name", JStr "");
                       ("start_date", JStr ""); ("end_date", JStr "")] in
  exists h1 h2 r1 r2,
    call (DocumentList.handleFilterChange
            (snd (FilterBar.handleFilterChange "filing_type" (JStr "10-K")
                    FilterBar.emptyFilters))) (fst (mount []))
      = Some (h1, r1) /\
    get (filters h1) "filing_type" = Some (JStr "10-K") /\
    call (DocumentList.handleFilterChange
            (snd (FilterBar.handleFilterChange "filing_type" (JStr "")
                    localFilters))) h1
      = Some (h2, r2) /\
    get (filters h2) "filing_type" = Some (JStr "10-K").
Proof.
  intros localFilters.
  destruct (filter_bar_cannot_remove (fst (mount [])) FilterBar.emptyFilters
              "filing_type" (JStr "10-K")) as (S & _ & _);
    [wf_literal | wf_literal | discriminate |].
  destruct (S eq_refl) as (h1 & r1 & C1 & G1 & _).
  assert (W1 : wf (filters h1)).
  { pose proof C1 as E. vm_compute in E. injection E as E _.
    rewrite <- E. wf_literal. }
  destruct (filter_bar_cannot_remove h1 localFilters "filing_type" (JStr ""))
    as (_ & R & _); [exact W1 | wf_literal | discriminate |].
  destruct (R eq_refl) as (h2 & r2 & C2 & G2).
  exists h1, h2, r1, r2. split; [exact C1|]. split; [exact G1|].
  split; [exact C2|]. rewrite G2. exact G1.
Defined.

End FilterBarFacts.

(* ================================================================== *)
(** * The pagination bar *)

Section PaginationFacts.

Import Pagination Observations.

Implicit Types (h : Hook) (cp tp start p : Z) (n : nat).















(** With five pages or fewer the window holds every page, and a shortcut
    repeats one of its buttons. *)
Example page_buttons_repeat_first_page :
  page_buttons 3 5 = [0; 0; 1; 2; 3; 4].
Proof. reflexivity. Qed.





(** Beyond the safe integers Previous does not go back a full page: from
    [skip = 2^53 + 2] with [limit = 1], [prevPage] puts [skip] at [2^53]. *)
Example prevPage_beyond_safe :
  let h := fst (mount [("skip", JNum 9007199254740994); ("limit", JNum 1)]) in
  exists h' r,
    call PrevPage h = Some (h', r) /\
    get (filters h') "skip" = Some (JNum 9007199254740992).
Proof.
  intros h. eexists _, _. split; [vm_compute; reflexivity | reflexivity].
Qed.

End PaginationFacts.

(* ================================================================== *)
(** * The AI search panel, after the request *)

Section SearchPanelSettleFacts.

Import SearchPanel.

(** X16: a search that is posted clears the answer on display at once, so
    a failed search leaves no answer behind, only a truthy error: the
    detail of the server's error when that is truthy, whatever its type (a
    non-empty string is stored as it is), and the fallback message
    otherwise; a fulfilled one shows the new answer and no error. *)
Theorem failed_search_leaves_no_result p data err :
  blank (query p) = false ->
  let p1 := fst (handleSearch p) in
  let p2 := SearchPanelSettle.on_rejected err p1 in
  result p1 = None /\ SearchPanel.loading p1 = true /\
  SearchPanel.error p1 = JNull /\
  result p2 = None /\
  SearchPanel.loading p2 = false /\
  JSON_ToBoolean (SearchPanel.error p2) = true /\
  (JSON_ToBoolean (UseDocuments.err_detail err) = true ->
   SearchPanel.error p2 = UseDocuments.err_detail err) /\
  (JSON_ToBoolean (UseDocuments.err_detail err) = false ->
   SearchPanel.error p2
   = JStr "An error occurred while searching. Please try again.") /\
  (forall d, UseDocuments.err_detail err = JStr d -> d <> "" ->
             SearchPanel.error p2 = JStr d) /\
  result (SearchPanelSettle.on_fulfilled data p1) = Some data /\
  SearchPanel.error (SearchPanelSettle.on_fulfilled data p1) = JNull.
Proof.
  intros B p1 p2.
  assert (E : p1 = {| query := query p;
                      companyFilter := companyFilter p;
                      filingTypeFilter := filingTypeFilter p;
                      SearchPanel.limit := SearchPanel.limit p;
                      SearchPanel.loading := true;
                      result := None;
                      SearchPanel.error := JNull |}).
  { unfold p1, handleSearch.
    destruct (trim (query p)) as [|c t] eqn:T; [|reflexivity].
    apply trim_blank in T. congruence. }
  unfold p2. rewrite E. cbn [SearchPanelSettle.on_rejected
    SearchPanelSettle.on_fulfilled result SearchPanel.loading
    SearchPanel.error]. unfold JSON_or.
  split; [reflexivity|]. split; [reflexivity|]. split; [reflexivity|].
  split; [reflexivity|]. split; [reflexivity|].
  split; [destruct (JSON_ToBoolean (UseDocuments.err_detail err)) eqn:D;
          [exact D | reflexivity]|].
  split; [intros ->; reflexivity|].
  split; [intros ->; reflexivity|].
  split; [|split; reflexivity].
  intros d -> N. simpl.
  destruct (String.eqb_spec d ""); [contradiction | reflexivity].
Qed.

Lemma failed_search_leaves_no_result_witness :
  let p := {| query := "Apple revenue"; companyFilter := "";
              filingTypeFilter := ""; SearchPanel.limit := JNum 5;
              SearchPanel.loading := false;
              result := Some [("answer", JStr "42")];
              SearchPanel.error := JNull |} in
  result (SearchPanelSettle.on_rejected UseDocuments.NoResponse
            (fst (handleSearch p))) = None /\
  SearchPanel.error (SearchPanelSettle.on_rejected UseDocuments.NoResponse
                       (fst (handleSearch p)))
  = JStr "An error occurred while searching. Please try again.".
Proof.
  intros p.
  destruct (failed_search_leaves_no_result p [] UseDocuments.NoResponse)
    as (_ & _ & _ & R & _ & _ & _ & F & _).
  - reflexivity.
  - split; [exact R | apply F; reflexivity].
Defined.

(** X17: the submit button and [handleSearch] agree: whenever the button
    is enabled the submission posts a search request and sets no error, so
    the message 'Please enter a search query' can only answer a submission
    made while the button is disabled; and while nothing is loading the
    button is disabled exactly for the blank queries. *)
Theorem submit_button_guards_handleSearch p :
  (SearchPanelSettle.submit_disabled p = false ->
   snd (handleSearch p) = Some (search_body p) /\
   SearchPanel.error (fst (handleSearch p)) = JNull) /\
  (SearchPanel.loading p = false ->
   (SearchPanelSettle.submit_disabled p = true <-> blank (query p) = true)).
Proof.
  unfold SearchPanelSettle.submit_disabled, handleSearch. split.
  - intros D. apply orb_false_elim in D. destruct D as [_ D].
    rewrite D. split; reflexivity.
  - intros L. rewrite L. simpl. rewrite <- trim_blank.
    destruct (trim (query p)); simpl; split; intros; congruence.
Qed.

Lemma submit_button_guards_handleSearch_witness :
  let p := {| query := " SEC "; companyFilter := "";
              filingTypeFilter := ""; SearchPanel.limit := JNum 5;
              SearchPanel.loading := false; result := None;
              SearchPanel.error := JNull |} in
  snd (handleSearch p)
    = Some [("query", JStr "SEC"); ("company_filter", JNull);
            ("filing_type_filter", JNull); ("limit", JNum 5)].
Proof.
  intros p.
  destruct (submit_button_guards_handleSearch p) as [K _].
  destruct (K eq_refl) as [S _]. exact S.
Defined.

End SearchPanelSettleFacts.

(* ================================================================== *)
(** * The first render *)

Section FirstRender.

Import Observations.

(** X18: [useDocuments(initialFilters)] starts from the defaults overridden
    by [initialFilters]: every key of [initialFilters] holds its value,
    [skip] and [limit] included, the defaults 0 and 20 stand where
    [initialFilters] has no such key, and the mount issues exactly one list
    request, for these filters. *)
Theorem useDocuments_initial_filters initialFilters :
  wf initialFilters ->
  let f := filters (useDocuments initialFilters) in
  (forall k v, In (k, v) initialFilters -> get f k = Some v) /\
  (~ In "skip" (keys initialFilters) -> get f "skip" = Some (JNum 0)) /\
  (~ In "limit" (keys initialFilters) -> get f "limit" = Some (JNum 20)) /\
  (forall k, In k (keys f) <->
             k = "skip" \/ k = "limit" \/ In k (keys initialFilters)) /\
  mount initialFilters = (fst (mount initialFilters), [f]) /\
  filters (fst (mount initialFilters)) = f /\
  settled (fst (mount initialFilters)).
Proof.
  intros W f. unfold f. simpl.
  split; [|split; [|split; [|split; [|split]]]].
  - intros k v I. rewrite get_spread_wf by assumption.
    rewrite (get_in _ _ _ W I). reflexivity.
  - intros N. rewrite get_spread_wf, get_notin by assumption. reflexivity.
  - intros N. rewrite get_spread_wf, get_notin by assumption. reflexivity.
  - intros k. rewrite in_keys_spread. simpl. intuition congruence.
  - reflexivity.
  - split; [reflexivity | apply settled_mount].
Qed.

Lemma useDocuments_initial_filters_witness :
  let f := filters (useDocuments [("limit", JNum 50);
                                  ("filing_type", JStr "10-K")]) in
  get f "limit" = Some (JNum 50) /\ get f "skip" = Some (JNum 0).
Proof.
  intros f.
  destruct (useDocuments_initial_filters
              [("limit", JNum 50); ("filing_type", JStr "10-K")])
    as (A & B & _); [wf_literal|].
  split.
  - apply A. simpl. tauto.
  - apply B. simpl. intuition discriminate.
Defined.

End FirstRender.
